(** * simple_log.h: a size-rotated log channel

    A shallow embedding of [src/simple_log.h].  Every C function of the
    header has one definition below, under its own name.  The operating
    system and the C runtime (streams, the file system, the clock, the
    path splitter, [printf]-style rendering) are an interface, [Platform];
    the header's own logic is written over it.  [Sim] is an in-memory
    instance of the interface on which the definitions run, and [Trace] an
    instance that records the calls made. *)

From Stdlib Require Import ZArith List String Ascii Bool Lia DecimalString.
From Stdlib Require DecimalPos DecimalZ.
Import ListNotations.
Local Open Scope string_scope.
Local Open Scope Z_scope.

Set Implicit Arguments.

(** ** Constants of the header *)

Definition MAX_LOG_TEXT : Z := 256.
Definition MAX_FILE_SIZE : Z := 1024.
Definition MAX_LOG_BACKUP : Z := 3.
(** [MAX_PATH] comes from <windows.h>. *)
Definition MAX_PATH : Z := 260.

(** [LOG_LEVEL]: a C enum is an [int]; any value can be passed. *)
Definition LOG_LEVEL := Z.
Definition ERR : LOG_LEVEL := 1.
Definition WAR : LOG_LEVEL := 2.
Definition INF : LOG_LEVEL := 3.
Definition DBG : LOG_LEVEL := 4.

(** ** C strings and [snprintf] *)

Module CStr.

(** What [snprintf (buf, nSize, ...)] leaves in [buf] when the rendering
    is [text] and the size is positive: at most [nSize - 1] characters,
    then the terminator.  It is used at the sizes of the arrays, which are
    positive constants. *)
Definition snprintf (nSize : Z) (text : string) : string :=
  substring 0 (Z.to_nat (nSize - 1)) text.

(** The same for a size that is an [int] argument, given what the buffer
    held before.  With size 0 nothing is stored.  A negative [int] becomes,
    as a [size_t], a size beyond any text, so nothing is cut. *)
Definition snprintf_into (szBuff : string) (nSize : Z) (text : string) : string :=
  if nSize =? 0 then szBuff
  else if nSize <? 0 then text
  else snprintf nSize text.

(** [%d] *)
Definition fmt_d (z : Z) : string := NilZero.string_of_int (Z.to_int z).

Fixpoint zeros (n : nat) : string :=
  match n with
  | O => EmptyString
  | S k => String "0" (zeros k)
  end.

(** [%0<w>d]: sign first, then zeros up to the width, then the digits. *)
Definition fmt_0d (w : nat) (z : Z) : string :=
  if z <? 0
  then let d := fmt_d (- z) in
       "-" ++ zeros (w - 1 - String.length d) ++ d
  else let d := fmt_d z in
       zeros (w - String.length d) ++ d.

End CStr.
Import CStr.

(** ** The lock

    [CRITICAL_SECTION] as one thread sees it: not initialised (or deleted),
    or initialised and entered [RecursionCount] times by the thread.  A
    Windows critical section is re-entrant; it is free again when every
    enter has been matched by a leave.  Entering or leaving an object that
    is not initialised is undefined; it is left as it is here. *)
Inductive CRITICAL_SECTION : Type :=
| CS_none
| CS_ready (RecursionCount : nat).

Definition InitializeCriticalSection (cs : CRITICAL_SECTION) : CRITICAL_SECTION :=
  CS_ready 0.

Definition DeleteCriticalSection (cs : CRITICAL_SECTION) : CRITICAL_SECTION :=
  CS_none.

Definition EnterCriticalSection (cs : CRITICAL_SECTION) : CRITICAL_SECTION :=
  match cs with
  | CS_ready n => CS_ready (S n)
  | CS_none => CS_none
  end.

Definition LeaveCriticalSection (cs : CRITICAL_SECTION) : CRITICAL_SECTION :=
  match cs with
  | CS_ready n => CS_ready (Nat.pred n)
  | CS_none => CS_none
  end.

(** The lock is held when it has been entered and not left. *)
Definition held (cs : CRITICAL_SECTION) : bool :=
  match cs with
  | CS_ready (S _) => true
  | _ => false
  end.

(** ** [LOG_INFO] *)

Record LOG_INFO : Type := mkLOG_INFO {
  stCS : CRITICAL_SECTION;
  szLogPath : string;
  bUsed : bool;
  nFileSize : Z;
  nLogBackup : Z;
  szDir : string;
  szFname : string;
  szFext : string
}.

Definition set_stCS (cs : CRITICAL_SECTION) (l : LOG_INFO) : LOG_INFO :=
  mkLOG_INFO cs (szLogPath l) (bUsed l) (nFileSize l) (nLogBackup l)
             (szDir l) (szFname l) (szFext l).

Definition set_szLogPath (p : string) (l : LOG_INFO) : LOG_INFO :=
  mkLOG_INFO (stCS l) p (bUsed l) (nFileSize l) (nLogBackup l)
             (szDir l) (szFname l) (szFext l).

Definition set_bUsed (b : bool) (l : LOG_INFO) : LOG_INFO :=
  mkLOG_INFO (stCS l) (szLogPath l) b (nFileSize l) (nLogBackup l)
             (szDir l) (szFname l) (szFext l).

Definition set_nFileSize (n : Z) (l : LOG_INFO) : LOG_INFO :=
  mkLOG_INFO (stCS l) (szLogPath l) (bUsed l) n (nLogBackup l)
             (szDir l) (szFname l) (szFext l).

Definition set_nLogBackup (n : Z) (l : LOG_INFO) : LOG_INFO :=
  mkLOG_INFO (stCS l) (szLogPath l) (bUsed l) (nFileSize l) n
             (szDir l) (szFname l) (szFext l).

Definition set_szDir (s : string) (l : LOG_INFO) : LOG_INFO :=
  mkLOG_INFO (stCS l) (szLogPath l) (bUsed l) (nFileSize l) (nLogBackup l)
             s (szFname l) (szFext l).

Definition set_szFname (s : string) (l : LOG_INFO) : LOG_INFO :=
  mkLOG_INFO (stCS l) (szLogPath l) (bUsed l) (nFileSize l) (nLogBackup l)
             (szDir l) s (szFext l).

Definition set_szFext (s : string) (l : LOG_INFO) : LOG_INFO :=
  mkLOG_INFO (stCS l) (szLogPath l) (bUsed l) (nFileSize l) (nLogBackup l)
             (szDir l) (szFname l) s.

(** A pointer argument is an [option]: [None] when it is [NULL]. *)

(** ** Functions that touch no file *)

(** The four lock helpers assert on a null pointer and then use it; every
    caller has checked the pointer before, so they take the object. *)
Definition _log_lock_init (l : LOG_INFO) : LOG_INFO :=
  set_stCS (InitializeCriticalSection (stCS l)) l.

Definition _log_lock_delete (l : LOG_INFO) : LOG_INFO :=
  set_stCS (DeleteCriticalSection (stCS l)) l.

Definition _log_lock (l : LOG_INFO) : LOG_INFO :=
  set_stCS (EnterCriticalSection (stCS l)) l.

Definition _log_unlock (l : LOG_INFO) : LOG_INFO :=
  set_stCS (LeaveCriticalSection (stCS l)) l.

Definition _log_level (enLevel : LOG_LEVEL) : string :=
  if enLevel =? ERR then "ERR"
  else if enLevel =? WAR then "WAR"
  else if enLevel =? INF then "INF"
  else if enLevel =? DBG then "DBG"
  else "???".

(** The name a backup number gets, before it is cut to a buffer. *)
Definition backup_text (l : LOG_INFO) (nBkNo : Z) : string :=
  szDir l ++ szFname l ++ "_" ++ fmt_d nBkNo ++ szFext l.

(** [_get_backupname]: the return code and what [szBuff] holds afterwards. *)
Definition _get_backupname (pstLog : option LOG_INFO) (nBkNo : Z)
    (szBuff : option string) (nSize : Z) : Z * option string :=
  match pstLog, szBuff with
  | Some l, Some buff =>
      if (nBkNo <? 0) || (nLogBackup l <? nBkNo)
      then (-1, szBuff)
      else (0, Some (snprintf_into buff nSize (backup_text l nBkNo)))
  | _, _ => (-1, szBuff)
  end.

(** [log_end] *)
Definition log_end (pstLog : option LOG_INFO) : Z * option LOG_INFO :=
  match pstLog with
  | None => (-1, None)
  | Some l => (0, Some (set_bUsed false (_log_lock_delete l)))
  end.

(** ** The platform

    What the header calls and does not define.  A stream operation takes
    the world and returns its result with the world after it; the two path
    queries only read the world. *)

Record SYSTEMTIME : Type := mkSYSTEMTIME {
  wYear : Z;
  wMonth : Z;
  wDay : Z;
  wHour : Z;
  wMinute : Z;
  wSecond : Z;
  wMilliseconds : Z
}.

Class Platform : Type := {
  World : Type;
  FILE : Type;
  va_list : Type;
  (** <stdlib.h>: drive, directory, base name, extension *)
  _splitpath : string -> string * string * string * string;
  (** the whole text a [printf]-style call renders *)
  vformat : string -> va_list -> string;
  (** what an array holds before anything is stored in it *)
  indeterminate : World -> string;
  errno : World -> Z;
  set_errno : Z -> World -> World;
  perror : World -> World;
  fopen : string -> string -> World -> option FILE * World;
  (** [_filelength (_fileno (fp))] *)
  _filelength : FILE -> World -> Z;
  fputs : string -> FILE -> World -> Z * World;
  fclose : FILE -> World -> Z * World;
  PathFileExists : string -> World -> bool;
  PathIsDirectory : string -> World -> bool;
  DeleteFile : string -> World -> bool * World;
  MoveFile : string -> string -> World -> bool * World;
  GetLocalTime : World -> SYSTEMTIME
}.

(** ** Computations over the world *)

Module IOMonad.

Definition IO {P : Platform} (A : Type) : Type := World -> A * World.

Definition ret {P : Platform} {A : Type} (a : A) : IO A := fun w => (a, w).

Definition bind {P : Platform} {A B : Type} (m : IO A) (k : A -> IO B) : IO B :=
  fun w => let (a, w') := m w in k a w'.

(** A query reads the world, an update only changes it. *)
Definition query {P : Platform} {A : Type} (f : World -> A) : IO A :=
  fun w => (f w, w).

Definition update {P : Platform} (f : World -> World) : IO unit :=
  fun w => (tt, f w).

Declare Scope io_scope.
Delimit Scope io_scope with io.
Notation "x <- m ;; k" := (bind m (fun x => k))
  (at level 61, m at next level, right associativity) : io_scope.
Notation "m ;;; k" := (bind m (fun _ => k))
  (at level 61, right associativity) : io_scope.

End IOMonad.
Import IOMonad.
Local Open Scope io_scope.

Section Logger.

Context {P : Platform}.

(** [if (errno != 0) perror (NULL);] *)
Definition report_errno : IO unit :=
  e <- query errno ;;
  if e =? 0 then ret tt else update perror.

(** [_get_fname_from_path]: the string the returned pointer designates. *)
Definition _get_fname_from_path (szPath : option string) (szBuff : option string)
    (nSize : Z) : string :=
  match szPath, szBuff with
  | Some path, Some buff =>
      let '(_, _, szFname, szExt) := _splitpath path in
      snprintf_into buff nSize (szFname ++ szExt)
  | _, _ => "(NULL)"
  end.

(** [_copy_filepath] *)
Definition _copy_filepath (pstLog : option LOG_INFO) (szPath : option string)
    : Z * option LOG_INFO :=
  match pstLog, szPath with
  | Some l, Some path =>
      let '(tmpDrive, tmpDir, tmpFname, tmpFext) := _splitpath path in
      let l := set_szDir "" l in
      let l := set_szFname "" l in
      let l := set_szFext "" l in
      let l := set_szLogPath "" l in
      let l := set_szDir (snprintf (MAX_PATH + 1) (tmpDrive ++ tmpDir)) l in
      let l := set_szFname (snprintf (MAX_PATH + 1) tmpFname) l in
      let l := set_szFext (snprintf (MAX_PATH + 1) tmpFext) l in
      let '(ret, buff) :=
        _get_backupname (Some l) 0 (Some (szLogPath l)) (MAX_PATH + 1) in
      match buff with
      | Some name => (ret, Some (set_szLogPath name l))
      | None => (ret, Some l)
      end
  | _, _ => (-1, pstLog)
  end.

(** [log_start] *)
Definition log_start (pstLog : option LOG_INFO) (szPath : option string)
    : Z * option LOG_INFO :=
  match pstLog, szPath with
  | Some l, Some _ =>
      let l := set_szLogPath "" l in
      let l := set_szDir "" l in
      let l := set_szFname "" l in
      let l := set_szFext "" l in
      let l := set_bUsed true l in
      let l := set_nFileSize MAX_FILE_SIZE l in
      let l := set_nLogBackup MAX_LOG_BACKUP l in
      let l := _log_lock_init l in
      let '(_, pstLog') := _copy_filepath (Some l) szPath in
      (0, pstLog')
  | _, _ => (-1, pstLog)
  end.

(** [_get_filesize] *)
Definition _get_filesize (szPath : option string) : IO Z :=
  match szPath with
  | None => ret (-1)
  | Some path =>
      fp <- fopen path "rb" ;;
      match fp with
      | None => ret (-1)
      | Some fp =>
          fsize <- query (_filelength fp) ;;
          let fsize := Z.shiftr fsize 10 in
          rc <- fclose fp ;;
          if negb (rc =? 0) then ret (-1) else ret fsize
      end
  end.

(** What a local buffer holds after [_get_backupname] was called on it. *)
Definition buffer_after (r : Z * option string) (before : string) : string :=
  match snd r with
  | Some s => s
  | None => before
  end.

(** [PathFileExists (p) && !PathIsDirectory (p)] *)
Definition regular_file (p : string) : IO bool :=
  e <- query (PathFileExists p) ;;
  if e then d <- query (PathIsDirectory p) ;; ret (negb d) else ret false.

(** The [for] loop of [_backup_file], from [nBkNo] down while [0 <= nBkNo].
    [fuel] bounds the number of rounds; [shift_loop_fuel] below shows that
    the loop ends by its own test when [fuel] is at least [nBkNo + 1]. *)
Fixpoint shift_loop (fuel : nat) (pstLog : option LOG_INFO) (nBkNo : Z)
    (szBefore szAfter : string) : IO unit :=
  match fuel with
  | O => ret tt
  | S fuel' =>
      if 0 <=? nBkNo then
        let szBefore :=
          buffer_after (_get_backupname pstLog nBkNo (Some szBefore) (MAX_PATH + 1))
                       szBefore in
        r <- regular_file szBefore ;;
        if r then
          let szAfter :=
            buffer_after
              (_get_backupname pstLog (nBkNo + 1) (Some szAfter) (MAX_PATH + 1))
              szAfter in
          _ <- MoveFile szBefore szAfter ;;
          shift_loop fuel' pstLog (nBkNo - 1) szBefore szAfter
        else shift_loop fuel' pstLog (nBkNo - 1) szBefore szAfter
      else ret tt
  end.

(** [_backup_file] *)
Definition _backup_file (pstLog : option LOG_INFO) : IO Z :=
  match pstLog with
  | None => ret (-1)
  | Some l =>
      fsize <- _get_filesize (Some (szLogPath l)) ;;
      if fsize <? 0 then ret 0 else
      szBefore <- query indeterminate ;;
      szAfter <- query indeterminate ;;
      if nFileSize l <=? fsize then
        let szBefore :=
          buffer_after
            (_get_backupname pstLog (nLogBackup l) (Some szBefore) (MAX_PATH + 1))
            szBefore in
        r <- regular_file szBefore ;;
        (if r then _ <- DeleteFile szBefore ;; ret tt else ret tt) ;;;
        shift_loop (Z.to_nat (nLogBackup l)) pstLog (nLogBackup l - 1)
                   szBefore szAfter ;;;
        ret 0
      else ret 0
  end.

(** The line [log_write] composes. *)
Definition write_line (stTime : SYSTEMTIME) (enLevel : LOG_LEVEL)
    (szBuff0 : string) : string :=
  fmt_0d 4 (wYear stTime) ++ "/" ++ fmt_0d 2 (wMonth stTime) ++ "/"
  ++ fmt_0d 2 (wDay stTime) ++ ", " ++ fmt_0d 2 (wHour stTime) ++ ":"
  ++ fmt_0d 2 (wMinute stTime) ++ ":" ++ fmt_0d 2 (wSecond stTime) ++ "."
  ++ fmt_0d 3 (wMilliseconds stTime) ++ ", " ++ _log_level enLevel ++ ", "
  ++ szBuff0 ++ String "013" (String "010" "").

(** The line [log_debug] composes. *)
Definition debug_line (stTime : SYSTEMTIME) (enLevel : LOG_LEVEL)
    (szFile : string) (nLine : Z) (szFunc : string) (szBuff0 : string) : string :=
  fmt_0d 4 (wYear stTime) ++ "/" ++ fmt_0d 2 (wMonth stTime) ++ "/"
  ++ fmt_0d 2 (wDay stTime) ++ ", " ++ fmt_0d 2 (wHour stTime) ++ ":"
  ++ fmt_0d 2 (wMinute stTime) ++ ":" ++ fmt_0d 2 (wSecond stTime) ++ "."
  ++ fmt_0d 3 (wMilliseconds stTime) ++ ", " ++ _log_level enLevel ++ ", "
  ++ szFile ++ "(" ++ fmt_d nLine ++ "), " ++ szFunc ++ ", "
  ++ szBuff0 ++ String "013" (String "010" "").

(** [log_write]: the return code and the channel afterwards. *)
Definition log_write (pstLog : option LOG_INFO) (enLevel : LOG_LEVEL)
    (szFmt : option string) (arg : va_list) : IO (Z * option LOG_INFO) :=
  match pstLog, szFmt with
  | Some l, Some fmt =>
      if negb (bUsed l) then ret (-1, pstLog) else
      let l := _log_lock l in
      _ <- _backup_file (Some l) ;;
      let szBuff0 := snprintf MAX_LOG_TEXT (vformat fmt arg) in
      update (set_errno 0) ;;;
      fp <- fopen (szLogPath l) "ab+" ;;
      match fp with
      | None => report_errno ;;; ret (-1, Some l)
      | Some fp =>
          stTime <- query GetLocalTime ;;
          let szBuff1 :=
            snprintf (MAX_LOG_TEXT * 2) (write_line stTime enLevel szBuff0) in
          _ <- fputs szBuff1 fp ;;
          rc <- fclose fp ;;
          if negb (rc =? 0)
          then report_errno ;;; ret (-1, Some (_log_unlock l))
          else ret (0, Some (_log_unlock l))
      end
  | _, _ => ret (-1, pstLog)
  end.

(** [log_debug] *)
Definition log_debug (pstLog : option LOG_INFO) (enLevel : LOG_LEVEL)
    (szFile : option string) (nLine : Z) (szFunc : option string)
    (szFmt : option string) (arg : va_list) : IO (Z * option LOG_INFO) :=
  match pstLog, szFmt, szFile, szFunc with
  | Some l, Some fmt, Some _, Some func =>
      if negb (bUsed l) then ret (-1, pstLog) else
      let l := _log_lock l in
      _ <- _backup_file (Some l) ;;
      let szFilename := "" in
      let szBuff0 := snprintf MAX_LOG_TEXT (vformat fmt arg) in
      update (set_errno 0) ;;;
      fp <- fopen (szLogPath l) "ab+" ;;
      match fp with
      | None => report_errno ;;; ret (-1, Some l)
      | Some fp =>
          stTime <- query GetLocalTime ;;
          let szBuff1 :=
            snprintf (MAX_LOG_TEXT * 2)
              (debug_line stTime enLevel
                 (_get_fname_from_path szFile (Some szFilename) MAX_PATH)
                 nLine func szBuff0) in
          _ <- fputs szBuff1 fp ;;
          rc <- fclose fp ;;
          if negb (rc =? 0)
          then report_errno ;;; ret (-1, Some (_log_unlock l))
          else ret (0, Some (_log_unlock l))
      end
  | _, _, _, _ => ret (-1, pstLog)
  end.

End Logger.

(** ** An in-memory platform

    A flat file system (full path to node), an [errno], what [perror]
    printed, a clock, and two switches that make the device refuse writes
    or fail on close.  Files keep what was appended to them piece by piece.
    It follows the documented behaviour of the Windows calls: [DeleteFile]
    refuses a read-only file, [MoveFile] refuses an existing target, and
    opening a directory or a read-only file for appending fails. *)

Module Sim.

Inductive node : Type :=
| File (pieces : list string) (readonly : bool)
| Dir.

Record world : Type := mkWorld {
  disk : list (string * node);
  err : Z;
  stderr : list Z;
  clock : SYSTEMTIME;
  garbage : string;
  disk_full : bool;
  close_fault : bool
}.

Definition with_disk (d : list (string * node)) (w : world) : world :=
  mkWorld d (err w) (stderr w) (clock w) (garbage w) (disk_full w) (close_fault w).

Definition with_err (e : Z) (w : world) : world :=
  mkWorld (disk w) e (stderr w) (clock w) (garbage w) (disk_full w) (close_fault w).

Definition print_err (w : world) : world :=
  mkWorld (disk w) (err w) (err w :: stderr w) (clock w) (garbage w)
          (disk_full w) (close_fault w).

Fixpoint lookup (p : string) (d : list (string * node)) : option node :=
  match d with
  | [] => None
  | (q, n) :: d' => if String.eqb p q then Some n else lookup p d'
  end.

Fixpoint remove (p : string) (d : list (string * node)) : list (string * node) :=
  match d with
  | [] => []
  | (q, n) :: d' => if String.eqb p q then remove p d' else (q, n) :: remove p d'
  end.

Definition store (p : string) (n : node) (d : list (string * node))
    : list (string * node) :=
  (p, n) :: remove p d.

Definition size_of (pieces : list string) : Z :=
  fold_right (fun s acc => Z.of_nat (String.length s) + acc) 0 pieces.

(** An open stream: the path it was opened on, and whether it may append. *)
Definition stream : Type := string * bool.

Definition ENOENT : Z := 2.
Definition EIO : Z := 5.
Definition EACCES : Z := 13.
Definition EINVAL : Z := 22.
Definition ENOSPC : Z := 28.

Definition sim_fopen (path mode : string) (w : world) : option stream * world :=
  if String.eqb mode "rb" then
    match lookup path (disk w) with
    | Some (File _ _) => (Some (path, false), w)
    | Some Dir => (None, with_err EACCES w)
    | None => (None, with_err ENOENT w)
    end
  else if String.eqb mode "ab+" then
    match lookup path (disk w) with
    | Some (File _ false) => (Some (path, true), w)
    | Some (File _ true) => (None, with_err EACCES w)
    | Some Dir => (None, with_err EACCES w)
    | None => (Some (path, true), with_disk (store path (File [] false) (disk w)) w)
    end
  else (None, with_err EINVAL w).

Definition sim_filelength (fp : stream) (w : world) : Z :=
  match lookup (fst fp) (disk w) with
  | Some (File pieces _) => size_of pieces
  | _ => -1
  end.

Definition sim_fputs (s : string) (fp : stream) (w : world) : Z * world :=
  if disk_full w then (-1, with_err ENOSPC w)
  else if snd fp then
    match lookup (fst fp) (disk w) with
    | Some (File pieces ro) =>
        (0, with_disk (store (fst fp) (File (pieces ++ [s]) ro) (disk w)) w)
    | _ => (-1, with_err EIO w)
    end
  else (-1, with_err EACCES w).

Definition sim_fclose (fp : stream) (w : world) : Z * world :=
  if close_fault w then (-1, with_err EIO w) else (0, w).

Definition sim_exists (p : string) (w : world) : bool :=
  match lookup p (disk w) with
  | Some _ => true
  | None => false
  end.

Definition sim_is_dir (p : string) (w : world) : bool :=
  match lookup p (disk w) with
  | Some Dir => true
  | _ => false
  end.

Definition sim_delete (p : string) (w : world) : bool * world :=
  match lookup p (disk w) with
  | Some (File _ false) => (true, with_disk (remove p (disk w)) w)
  | _ => (false, w)
  end.

Definition sim_move (a b : string) (w : world) : bool * world :=
  match lookup a (disk w), lookup b (disk w) with
  | Some n, None => (true, with_disk (store b n (remove a (disk w))) w)
  | _, _ => (false, w)
  end.

(** The part of [s] up to and including the last character that satisfies
    [p], and the rest; [None] when no character does. *)
Fixpoint cut_after_last (p : ascii -> bool) (s : string) : option (string * string) :=
  match s with
  | EmptyString => None
  | String c s' =>
      match cut_after_last p s' with
      | Some (a, b) => Some (String c a, b)
      | None => if p c then Some (String c EmptyString, s') else None
      end
  end.

(** The part of [s] before the last character that satisfies [p], and the
    rest from that character on. *)
Fixpoint cut_before_last (p : ascii -> bool) (s : string) : option (string * string) :=
  match s with
  | EmptyString => None
  | String c s' =>
      match cut_before_last p s' with
      | Some (a, b) => Some (String c a, b)
      | None => if p c then Some (EmptyString, s) else None
      end
  end.

Definition is_slash (c : ascii) : bool :=
  Ascii.eqb c "/" || Ascii.eqb c "\".

Definition is_dot (c : ascii) : bool := Ascii.eqb c ".".

(** [_splitpath] as the C runtime documents it: an optional drive letter
    with its colon, the directory up to the last slash, the base name, and
    the extension from the last dot of the name. *)
Definition sim_splitpath (path : string) : string * string * string * string :=
  let '(drive, rest) :=
    match path with
    | String c (String ":" r) => (String c (String ":" EmptyString), r)
    | _ => (EmptyString, path)
    end in
  let '(dir, name) :=
    match cut_after_last is_slash rest with
    | Some (d, n) => (d, n)
    | None => (EmptyString, rest)
    end in
  let '(fname, ext) :=
    match cut_before_last is_dot name with
    | Some (f, e) => (f, e)
    | None => (name, EmptyString)
    end in
  (drive, dir, fname, ext).

(** Rendering: [%s] takes the next argument; anything else is copied. *)
Fixpoint sim_vformat (fmt : string) (args : list string) : string :=
  match fmt with
  | EmptyString => EmptyString
  | String c rest =>
      match rest with
      | String d rest' =>
          if Ascii.eqb c "%" && Ascii.eqb d "s" then
            match args with
            | a :: args' => a ++ sim_vformat rest' args'
            | [] => sim_vformat rest' []
            end
          else String c (sim_vformat rest args)
      | EmptyString => String c EmptyString
      end
  end.

#[export] Instance platform : Platform := {|
  World := world;
  FILE := stream;
  va_list := list string;
  _splitpath := sim_splitpath;
  vformat := sim_vformat;
  indeterminate := garbage;
  errno := err;
  set_errno := with_err;
  perror := print_err;
  fopen := sim_fopen;
  _filelength := sim_filelength;
  fputs := sim_fputs;
  fclose := sim_fclose;
  PathFileExists := sim_exists;
  PathIsDirectory := sim_is_dir;
  DeleteFile := sim_delete;
  MoveFile := sim_move;
  GetLocalTime := clock
|}.

(** A channel before its first start: every field zero. *)
Definition zeroed : LOG_INFO :=
  mkLOG_INFO CS_none "" false 0 0 "" "" "".

Definition noon : SYSTEMTIME := mkSYSTEMTIME 2024 2 29 12 0 5 7.

Definition empty_world : world := mkWorld [] 0 [] noon "" false false.

(** [log_start] at the in-memory platform, and the channel it leaves when
    a zeroed channel is started on a path. *)
Definition start (pstLog : option LOG_INFO) (szPath : option string)
    : Z * option LOG_INFO :=
  log_start pstLog szPath.

Definition started (path : string) : option LOG_INFO :=
  snd (start (Some zeroed) (Some path)).

(** [log_write] and [log_debug] at the in-memory platform. *)
Definition write (pstLog : option LOG_INFO) (enLevel : LOG_LEVEL)
    (szFmt : option string) (arg : list string) (w : world)
    : Z * option LOG_INFO * world :=
  log_write pstLog enLevel szFmt arg w.

Definition debug (pstLog : option LOG_INFO) (enLevel : LOG_LEVEL)
    (szFile : option string) (nLine : Z) (szFunc : option string)
    (szFmt : option string) (arg : list string) (w : world)
    : Z * option LOG_INFO * world :=
  log_debug pstLog enLevel szFile nLine szFunc szFmt arg w.

End Sim.

(** ** The rotation cascade and call sequences, as the specification
    words them *)

Section Specification.

Context {P : Platform}.

(** The name of generation [index]: what [_get_backupname] stores in a
    path buffer of [MAX_PATH + 1] bytes. *)
Definition backupName (l : LOG_INFO) (index : Z) : string :=
  buffer_after (_get_backupname (Some l) index (Some "") (MAX_PATH + 1)) "".

(** Step a: delete the oldest generation if a regular file is there. *)
Definition delete_oldest (l : LOG_INFO) : IO unit :=
  r <- regular_file (backupName l (nLogBackup l)) ;;
  if r then _ <- DeleteFile (backupName l (nLogBackup l)) ;; ret tt else ret tt.

(** Step b for one index: rename it to the next one if a regular file is
    there. *)
Definition shift_one (l : LOG_INFO) (index : Z) : IO unit :=
  r <- regular_file (backupName l index) ;;
  if r
  then _ <- MoveFile (backupName l index) (backupName l (index + 1)) ;; ret tt
  else ret tt.

(** Step b: the indices [n - 1] down to [0]. *)
Fixpoint shift_down (l : LOG_INFO) (n : nat) : IO unit :=
  match n with
  | O => ret tt
  | S k => shift_one l (Z.of_nat k) ;;; shift_down l k
  end.

Definition rotation_cascade (l : LOG_INFO) : IO unit :=
  delete_oldest l ;;; shift_down l (Z.to_nat (nLogBackup l)).

(** A write request of either kind. *)
Inductive call : Type :=
| Write (enLevel : LOG_LEVEL) (szFmt : option string) (arg : va_list)
| Debug (enLevel : LOG_LEVEL) (szFile : option string) (nLine : Z)
        (szFunc : option string) (szFmt : option string) (arg : va_list).

Definition perform (c : call) (pstLog : option LOG_INFO)
    : IO (Z * option LOG_INFO) :=
  match c with
  | Write enLevel szFmt arg => log_write pstLog enLevel szFmt arg
  | Debug enLevel szFile nLine szFunc szFmt arg =>
      log_debug pstLog enLevel szFile nLine szFunc szFmt arg
  end.

(** The channel after a sequence of writes. *)
Fixpoint perform_all (cs : list call) (pstLog : option LOG_INFO)
    : IO (option LOG_INFO) :=
  match cs with
  | [] => ret pstLog
  | c :: cs' => r <- perform c pstLog ;; perform_all cs' (snd r)
  end.

(** The decomposition [_copy_filepath] stores: drive and directory
    together, base name, extension, each in a buffer of [MAX_PATH + 1]. *)
Definition decompose (path : string) : string * string * string :=
  let '(tmpDrive, tmpDir, tmpFname, tmpFext) := _splitpath path in
  (snprintf (MAX_PATH + 1) (tmpDrive ++ tmpDir),
   snprintf (MAX_PATH + 1) tmpFname,
   snprintf (MAX_PATH + 1) tmpFext).

(** A channel that is not in use: never started, or stopped. *)
Definition inactive (pstLog : option LOG_INFO) : bool :=
  match pstLog with
  | Some l => negb (bUsed l)
  | None => true
  end.

(** The fields [log_start] derives from the path. *)
Definition same_names (l l' : LOG_INFO) : Prop :=
  szLogPath l' = szLogPath l /\ szDir l' = szDir l
  /\ szFname l' = szFname l /\ szFext l' = szFext l.

(** The line either write variant hands to [fputs]. *)
Definition record_of (c : call) (stTime : SYSTEMTIME) : string :=
  match c with
  | Write enLevel szFmt arg =>
      snprintf (MAX_LOG_TEXT * 2)
        (write_line stTime enLevel
           (snprintf MAX_LOG_TEXT (vformat (match szFmt with Some f => f | None => "" end) arg)))
  | Debug enLevel szFile nLine szFunc szFmt arg =>
      snprintf (MAX_LOG_TEXT * 2)
        (debug_line stTime enLevel
           (_get_fname_from_path szFile (Some "") MAX_PATH) nLine
           (match szFunc with Some f => f | None => "" end)
           (snprintf MAX_LOG_TEXT (vformat (match szFmt with Some f => f | None => "" end) arg)))
  end.

(** The eager checks of a write pass: no pointer is null and the channel
    is in use. *)
Definition accepted (c : call) (pstLog : option LOG_INFO) : bool :=
  match pstLog with
  | None => false
  | Some l =>
      bUsed l &&
      match c with
      | Write _ (Some _) _ => true
      | Debug _ (Some _) _ (Some _) (Some _) _ => true
      | _ => false
      end
  end.

End Specification.

(** ** The cascade, stated on the platform alone

    The rotation cascade once more, this time without any function of the
    header: names are spelled out, "a regular file exists" is asked of the
    platform, and each step is the platform's delete or rename, whose
    result is dropped. *)

Module Cascade.

Section OnPlatform.

Context {P : Platform}.

(** The name of generation [index]: directory, stem, an underscore, the
    index in decimal and the extension, as far as a path of [MAX_PATH]
    characters holds it. *)
Definition name (l : LOG_INFO) (index : Z) : string :=
  substring 0 (Z.to_nat MAX_PATH)
    (szDir l ++ szFname l ++ "_" ++ NilZero.string_of_int (Z.to_int index)
     ++ szFext l).

(** A regular file, not a directory, exists at [p]. *)
Definition regular (p : string) (w : World) : bool :=
  PathFileExists p w && negb (PathIsDirectory p w).

(** Delete the oldest generation if it is a regular file. *)
Definition drop_oldest (l : LOG_INFO) (w : World) : World :=
  if regular (name l (nLogBackup l)) w
  then snd (DeleteFile (name l (nLogBackup l)) w)
  else w.

(** Rename generation [index] to the next one if it is a regular file. *)
Definition move_up (l : LOG_INFO) (index : Z) (w : World) : World :=
  if regular (name l index) w
  then snd (MoveFile (name l index) (name l (index + 1)) w)
  else w.

(** [move_up] for the indices [n - 1], [n - 2], ..., 0, in this order. *)
Fixpoint move_all_up (l : LOG_INFO) (n : nat) (w : World) : World :=
  match n with
  | O => w
  | S k => move_all_up l k (move_up l (Z.of_nat k) w)
  end.

Definition run (l : LOG_INFO) (w : World) : World :=
  move_all_up l (Z.to_nat (nLogBackup l)) (drop_oldest l w).

End OnPlatform.

End Cascade.

(** ** A recording platform

    Every call that opens, writes, closes, deletes or renames is written
    down in order, and every step that can fail does: [fputs], [DeleteFile]
    and [MoveFile] report failure.  Every name holds a regular file of one
    mebibyte. *)

Module Trace.

Inductive event : Type :=
| Opened (path mode : string)
| Put (path text : string)
| Closed (path : string)
| Deleted (path : string)
| Moved (from to : string)
| Printed.

Definition record (e : event) (w : list event) : list event := w ++ [e].

#[export] Instance platform : Platform := {|
  World := list event;
  FILE := string;
  va_list := unit;
  _splitpath := Sim.sim_splitpath;
  vformat := fun fmt _ => fmt;
  indeterminate := fun _ => "";
  errno := fun _ => 0;
  set_errno := fun _ w => w;
  perror := record Printed;
  fopen := fun path mode w => (Some path, record (Opened path mode) w);
  _filelength := fun _ _ => 1048576;
  fputs := fun s fp w => (-1, record (Put fp s) w);
  fclose := fun fp w => (0, record (Closed fp) w);
  PathFileExists := fun _ _ => true;
  PathIsDirectory := fun _ _ => false;
  DeleteFile := fun p w => (false, record (Deleted p) w);
  MoveFile := fun a b w => (false, record (Moved a b) w);
  GetLocalTime := fun _ => Sim.noon
|}.

Definition start (pstLog : option LOG_INFO) (szPath : option string)
    : Z * option LOG_INFO :=
  log_start pstLog szPath.

Definition write (pstLog : option LOG_INFO) (enLevel : LOG_LEVEL)
    (szFmt : option string) (w : list event)
    : Z * option LOG_INFO * list event :=
  log_write pstLog enLevel szFmt tt w.

End Trace.

(** ** Channels and worlds to run the definitions on *)

Module Scenario.

Import Sim.

Fixpoint fill (c : ascii) (n : nat) : string :=
  match n with
  | O => EmptyString
  | S k => String c (fill c k)
  end.

(** A path whose parts each fit the C runtime's limits (255 characters)
    and whose backup names do not fit [MAX_PATH]. *)
Definition long_path : string :=
  "C:/" ++ fill "a" 198 ++ "/" ++ fill "b" 100 ++ ".log".

Definition app : option LOG_INFO := started "C:/logs/app.log".

(** The same channel, field by field. *)
Definition app_info : LOG_INFO :=
  mkLOG_INFO (CS_ready 0) "C:/logs/app_0.log" true 1024 3 "C:/logs/" "app" ".log".

Definition live : string := "C:/logs/app_0.log".
Definition gen1 : string := "C:/logs/app_1.log".
Definition gen2 : string := "C:/logs/app_2.log".
Definition gen3 : string := "C:/logs/app_3.log".

Definition on_disk (d : list (string * node)) : world :=
  mkWorld d 0 [] noon "" false false.

(** One mebibyte, in pieces of one kibibyte: 1024 units of the size check. *)
Definition mebibyte : list string := repeat (fill "x" 1024) 1024.

(** A directory sits where the live file should be: it cannot be opened. *)
Definition blocked : world := on_disk [(live, Dir)].

(** The live file is read-only: it can be measured, not appended to. *)
Definition write_protected : world := on_disk [(live, File ["old"] true)].

(** The live file is full and two older generations exist. *)
Definition due : world :=
  on_disk [(live, File mebibyte false); (gen1, File ["one"] false);
           (gen3, File ["three"] false)].

(** As [due], and nothing of the cascade can succeed: the oldest file is
    read-only, a directory has the name of generation 2, and so every
    rename finds its target taken. *)
Definition stuck : world :=
  on_disk [(live, File mebibyte false); (gen1, File ["one"] false);
           (gen2, Dir); (gen3, File ["three"] true)].

(** As [due], on a device that fails every close. *)
Definition failing_close : world :=
  mkWorld (disk due) 0 [] noon "" false true.

(** A device that refuses every write; the same once the live file has
    been created on it, and once a write to it has been refused. *)
Definition full : world := mkWorld [] 0 [] noon "" true false.

Definition full_opened : world :=
  mkWorld [(live, File [] false)] 0 [] noon "" true false.

Definition full_refused : world :=
  mkWorld [(live, File [] false)] ENOSPC [] noon "" true false.

(** Requests. *)
Definition lost : call := Write INF (Some "lost") [].

Definition note : call := Write INF (Some "rotated %s") ["now"].

Definition probe : call :=
  Debug DBG (Some "src/main.c") 42 (Some "main") (Some "probe") [].

End Scenario.

(** ** Vocabulary of the further facts *)

Module Terms.

Definition CRLF : string := String "013" (String "010" "").

(** A [SYSTEMTIME] whose fields are what their type says: 16-bit words. *)
Definition words (t : SYSTEMTIME) : Prop :=
  0 <= wYear t <= 65535 /\ 0 <= wMonth t <= 65535 /\ 0 <= wDay t <= 65535
  /\ 0 <= wHour t <= 65535 /\ 0 <= wMinute t <= 65535
  /\ 0 <= wSecond t <= 65535 /\ 0 <= wMilliseconds t <= 65535.

(** A [SYSTEMTIME] whose fields have no more digits than their columns. *)
Definition in_columns (t : SYSTEMTIME) : Prop :=
  0 <= wYear t <= 9999 /\ 0 <= wMonth t <= 99 /\ 0 <= wDay t <= 99
  /\ 0 <= wHour t <= 99 /\ 0 <= wMinute t <= 99
  /\ 0 <= wSecond t <= 99 /\ 0 <= wMilliseconds t <= 999.

(** [f] holds of the [n] numbers from [z] on. *)
Fixpoint all_from (f : Z -> bool) (n : nat) (z : Z) : bool :=
  match n with
  | O => true
  | S k => f z && all_from f k (z + 1)
  end.

(** Every number from 0 to [bound - 1] prints with at most [w] digits. *)
Definition digits_within (w : nat) (bound : Z) : bool :=
  all_from (fun z => (String.length (fmt_d z) <=? w)%nat) (Z.to_nat bound) 0.

(** The name [p] is free on the disk, or holds a file that can be renamed
    and deleted. *)
Definition movable (d : list (string * Sim.node)) (p : string) : bool :=
  match Sim.lookup p d with
  | None => true
  | Some (Sim.File _ ro) => negb ro
  | Some Sim.Dir => false
  end.

(** What the file at [p] holds; nothing when there is no file. *)
Definition pieces_at (d : list (string * Sim.node)) (p : string) : list string :=
  match Sim.lookup p d with
  | Some (Sim.File ps _) => ps
  | _ => []
  end.

(** [p] names a directory. *)
Definition is_directory (d : list (string * Sim.node)) (p : string) : Prop :=
  Sim.lookup p d = Some Sim.Dir.

(** The device of [w'] is the device of [w]: same clock, same switches. *)
Definition same_device (w w' : Sim.world) : Prop :=
  Sim.clock w' = Sim.clock w /\ Sim.disk_full w' = Sim.disk_full w
  /\ Sim.close_fault w' = Sim.close_fault w.

(** The disk [d] is [d0] with the generations from [k] on moved up by one
    and the name of generation [k] free; names that are no generation of
    the channel are as in [d0]. *)
Definition shifted (l : LOG_INFO) (d0 d : list (string * Sim.node)) (k : Z)
    : Prop :=
  Sim.lookup (backupName l k) d = None
  /\ (forall j : Z, 0 <= j < k ->
        Sim.lookup (backupName l j) d = Sim.lookup (backupName l j) d0)
  /\ (forall j : Z, k <= j < nLogBackup l ->
        Sim.lookup (backupName l (j + 1)) d = Sim.lookup (backupName l j) d0)
  /\ (forall p : string,
        (forall i : Z, 0 <= i <= nLogBackup l -> p <> backupName l i) ->
        Sim.lookup p d = Sim.lookup p d0).

(** Requests to the recording platform: two that pass the checks and one
    without a format. *)
Definition mixed : list (@call Trace.platform) :=
  [@Write Trace.platform INF (Some "one") tt;
   @Write Trace.platform 9 None tt;
   @Debug Trace.platform DBG (Some "a.c") 1 (Some "f") (Some "two") tt].

End Terms.

(** * Facts *)

(** ** Buffers *)

Lemma substring_all (s : string) (n : nat) :
  (String.length s <= n)%nat -> substring 0 n s = s.
Proof.
  revert n; induction s as [|c s IH]; intros [|n] H; simpl in *;
    try reflexivity; try lia.
  f_equal. apply IH. lia.
Qed.

Lemma snprintf_fits (nSize : Z) (text : string) :
  Z.of_nat (String.length text) < nSize -> snprintf nSize text = text.
Proof.
  intros H. unfold snprintf. apply substring_all. lia.
Qed.

Lemma fmt_d_digits :
  fmt_d 0 = "0" /\ fmt_d 3 = "3" /\ fmt_d 12 = "12" /\ fmt_d (-7) = "-7".
Proof. repeat split; reflexivity. Qed.

(** ** The definitions at work *)

Example splitpath_example :
  Sim.sim_splitpath "C:/logs/app.log" = ("C:", "/logs/", "app", ".log")
  /\ Sim.sim_splitpath "app" = ("", "", "app", "")
  /\ Sim.sim_splitpath "logs\\app.2024.log" = ("", "logs\\", "app.2024", ".log").
Proof. repeat split. Qed.

Example start_example :
  Sim.start (Some Sim.zeroed) (Some "C:/logs/app.log") = (0, Some Scenario.app_info)
  /\ Scenario.app = Some Scenario.app_info.
Proof. split; vm_compute; reflexivity. Qed.

Example first_write_example :
  Sim.disk (snd (Sim.write Scenario.app INF (Some "hello %s!") ["world"]
                   Sim.empty_world)) =
  [(Scenario.live,
    Sim.File ["2024/02/29, 12:00:05.007, INF, hello world!"
               ++ String "013" (String "010" "")] false)].
Proof. vm_compute; reflexivity. Qed.

Example debug_line_example :
  debug_line Sim.noon 9 "main.c" 42 "main" "probe" =
  "2024/02/29, 12:00:05.007, ???, main.c(42), main, probe"
  ++ String "013" (String "010" "").
Proof. vm_compute; reflexivity. Qed.

(** [_get_backupname] at sizes no caller passes: with size 0 the buffer
    keeps what it held, with a negative size the name is stored whole, with
    a small size the name is cut. *)
Example get_backupname_odd_sizes :
  _get_backupname (Some Scenario.app_info) 2 (Some "kept") 0 = (0, Some "kept")
  /\ _get_backupname (Some Scenario.app_info) 2 (Some "kept") (-1) =
       (0, Some "C:/logs/app_2.log")
  /\ _get_backupname (Some Scenario.app_info) 2 (Some "kept") 5 = (0, Some "C:/l").
Proof. repeat split. Qed.

(** A write that rotates: the oldest generation goes, the others move up
    by one, the full live file becomes generation 1, and a new live file
    holds the one record. *)
Example rotation_example :
  map (fun '(p, n) =>
         (p, match n with Sim.File ps _ => Sim.size_of ps | Sim.Dir => -1 end))
      (Sim.disk (snd (Sim.write Scenario.app INF (Some "rotated %s") ["now"]
                        Scenario.due))) =
  [(Scenario.live, 44); (Scenario.gen1, 1048576); (Scenario.gen2, 3)].
Proof. vm_compute; reflexivity. Qed.

(** On the recording platform: the calls of one write, in order.  The size
    query, the delete at index 3, the renames from index 2 down to 0, and
    the append; the delete, the renames and [fputs] all fail, and the write
    returns 0. *)
Example write_call_order :
  Trace.write (snd (Trace.start (Some Sim.zeroed) (Some "C:/logs/app.log")))
    INF (Some "x") [] =
  ((0, Some Scenario.app_info),
   [Trace.Opened Scenario.live "rb"; Trace.Closed Scenario.live;
    Trace.Deleted Scenario.gen3;
    Trace.Moved Scenario.gen2 Scenario.gen3;
    Trace.Moved Scenario.gen1 Scenario.gen2;
    Trace.Moved Scenario.live Scenario.gen1;
    Trace.Opened Scenario.live "ab+";
    Trace.Put Scenario.live
      ("2024/02/29, 12:00:05.007, INF, x" ++ String "013" (String "010" ""));
    Trace.Closed Scenario.live]).
Proof. vm_compute; reflexivity. Qed.

(** A refused write makes no call at all. *)
Example refused_write_makes_no_call :
  Trace.write (Some Sim.zeroed) INF (Some "x") [] = ((-1, Some Sim.zeroed), [])
  /\ Trace.write (snd (Trace.start (Some Sim.zeroed) (Some "app.log"))) INF None [] =
     ((-1, snd (Trace.start (Some Sim.zeroed) (Some "app.log"))), []).
Proof. split; vm_compute; reflexivity. Qed.

Lemma pair_eta (A B : Type) (p : A * B) (a : A) :
  fst p = a -> p = (a, snd p).
Proof. intros <-. destruct p; reflexivity. Qed.

(** ** The write path, case by case *)

Section LoggerFacts.

Context {P : Platform}.

Ltac run_io :=
  unfold bind, ret, query, update in *; cbv beta iota in *.

Lemma regular_file_value (p : string) (w : World) :
  regular_file p w = (PathFileExists p w && negb (PathIsDirectory p w), w).
Proof.
  unfold regular_file; run_io.
  destruct (PathFileExists p w); reflexivity.
Qed.

Lemma get_filesize_open_fails (path : string) (w w1 : World) :
  fopen path "rb" w = (None, w1) ->
  _get_filesize (Some path) w = (-1, w1).
Proof.
  intros H. unfold _get_filesize; run_io. rewrite H. reflexivity.
Qed.

Lemma get_filesize_opened (path : string) (w w1 w2 : World) (fp : FILE) (rc : Z) :
  fopen path "rb" w = (Some fp, w1) ->
  fclose fp w1 = (rc, w2) ->
  _get_filesize (Some path) w =
  (if rc =? 0 then Z.shiftr (_filelength fp w1) 10 else -1, w2).
Proof.
  intros Ho Hc. unfold _get_filesize; run_io. rewrite Ho, Hc.
  destruct (rc =? 0); reflexivity.
Qed.

Lemma backup_file_code (l : LOG_INFO) (w : World) :
  fst (_backup_file (Some l) w) = 0.
Proof.
  unfold _backup_file; run_io.
  destruct (_get_filesize (Some (szLogPath l)) w) as [fsize w1].
  destruct (fsize <? 0); [reflexivity|].
  destruct (nFileSize l <=? fsize); [|reflexivity].
  repeat match goal with
         | |- context [let (_, _) := ?m in _] => destruct m
         | |- context [if ?b then _ else _] => destruct b
         end; reflexivity.
Qed.

(** What an accepted write does: lock, rotation check, open for append,
    and then either the early return or append, close and unlock. *)
Lemma perform_accepted (c : call) (l : LOG_INFO) (w : World) :
  accepted c (Some l) = true ->
  perform c (Some l) w =
  let l1 := _log_lock l in
  let w1 := set_errno 0 (snd (_backup_file (Some l1) w)) in
  match fopen (szLogPath l) "ab+" w1 with
  | (None, w2) => ((-1, Some l1), snd (report_errno w2))
  | (Some fp, w2) =>
      let w3 := snd (fputs (record_of c (GetLocalTime w2)) fp w2) in
      let (rc, w4) := fclose fp w3 in
      if rc =? 0
      then ((0, Some (_log_unlock l1)), w4)
      else ((-1, Some (_log_unlock l1)), snd (report_errno w4))
  end.
Proof.
  intros Hacc. unfold accepted in Hacc.
  apply andb_true_iff in Hacc as [Hused Hargs].
  destruct c as [lv [fmt|] arg | lv [file|] line [func|] [fmt|] arg];
    try discriminate Hargs; unfold perform, log_write, log_debug; rewrite Hused;
    cbv iota beta; unfold negb, record_of; run_io;
    change (szLogPath (_log_lock l)) with (szLogPath l);
    destruct (_backup_file (Some (_log_lock l)) w) as [r0 w0]; cbn [snd];
    destruct (fopen (szLogPath l) "ab+" (set_errno 0 w0)) as [[fp|] w2];
    try (destruct (report_errno w2); reflexivity);
    match goal with
    | |- context [fputs ?s fp w2] => destruct (fputs s fp w2) as [r3 w3]
    end; cbn [snd];
    destruct (fclose fp w3) as [rc w4];
    destruct (rc =? 0); try reflexivity;
    destruct (report_errno w4); reflexivity.
Qed.

(** A write that fails its eager checks returns at once. *)
Lemma perform_rejected (c : call) (pstLog : option LOG_INFO) (w : World) :
  accepted c pstLog = false ->
  perform c pstLog w = ((-1, pstLog), w).
Proof.
  intros Hrej. unfold accepted in Hrej.
  destruct pstLog as [l|].
  - destruct c as [lv [fmt|] arg | lv [file|] line [func|] [fmt|] arg];
      simpl; unfold log_write, log_debug; try reflexivity;
      rewrite andb_true_r in Hrej; rewrite Hrej; reflexivity.
  - destruct c as [lv [fmt|] arg | lv [file|] line [func|] [fmt|] arg];
      reflexivity.
Qed.

(** ** Backup names *)

Lemma snprintf_into_positive (szBuff : string) (nSize : Z) (text : string) :
  0 < nSize -> snprintf_into szBuff nSize text = snprintf nSize text.
Proof.
  intros Hpos. unfold snprintf_into.
  replace (nSize =? 0) with false by (symmetry; apply Z.eqb_neq; lia).
  replace (nSize <? 0) with false by (symmetry; apply Z.ltb_ge; lia).
  reflexivity.
Qed.

Lemma get_backupname_stores (l : LOG_INFO) (nBkNo : Z) (buf : string) (nSize : Z) :
  0 <= nBkNo <= nLogBackup l ->
  _get_backupname (Some l) nBkNo (Some buf) nSize =
  (0, Some (snprintf_into buf nSize (backup_text l nBkNo))).
Proof.
  intros [Hlo Hhi]. unfold _get_backupname.
  replace (nBkNo <? 0) with false by (symmetry; apply Z.ltb_ge; lia).
  replace (nLogBackup l <? nBkNo) with false by (symmetry; apply Z.ltb_ge; lia).
  reflexivity.
Qed.

Lemma get_backupname_in_range (l : LOG_INFO) (nBkNo : Z) (buf : string) :
  0 <= nBkNo <= nLogBackup l ->
  _get_backupname (Some l) nBkNo (Some buf) (MAX_PATH + 1) =
  (0, Some (snprintf (MAX_PATH + 1) (backup_text l nBkNo))).
Proof.
  intros Hin. rewrite get_backupname_stores by exact Hin. reflexivity.
Qed.

Lemma get_backupname_out_of_range (l : LOG_INFO) (nBkNo : Z) (buf : option string)
    (nSize : Z) :
  nBkNo < 0 \/ nLogBackup l < nBkNo ->
  _get_backupname (Some l) nBkNo buf nSize = (-1, buf).
Proof.
  intros H. unfold _get_backupname. destruct buf as [b|]; [|reflexivity].
  destruct H as [H|H].
  - apply Z.ltb_lt in H. rewrite H. reflexivity.
  - apply Z.ltb_lt in H. rewrite H, orb_true_r. reflexivity.
Qed.

Lemma buffer_holds_backupName (l : LOG_INFO) (nBkNo : Z) (buf : string) :
  0 <= nBkNo <= nLogBackup l ->
  buffer_after (_get_backupname (Some l) nBkNo (Some buf) (MAX_PATH + 1)) buf =
  backupName l nBkNo.
Proof.
  intros H. unfold backupName.
  rewrite !get_backupname_in_range by exact H. reflexivity.
Qed.

(** ** The loop of [_backup_file] *)

(** With fuel for every index that is left, the loop is step b of the
    cascade: it stops because its test fails, not because fuel ran out. *)
Lemma shift_loop_fuel (l : LOG_INFO) (k : nat) :
  Z.of_nat k <= nLogBackup l ->
  forall (fuel : nat) (szBefore szAfter : string) (w : World),
    (k <= fuel)%nat ->
    shift_loop fuel (Some l) (Z.of_nat k - 1) szBefore szAfter w =
    shift_down l k w.
Proof.
  induction k as [|k IH]; intros Hk fuel szBefore szAfter w Hfuel.
  - destruct fuel; reflexivity.
  - destruct fuel as [|fuel]; [lia|].
    cbn [shift_loop shift_down].
    replace (Z.of_nat (S k) - 1) with (Z.of_nat k) by lia.
    replace (0 <=? Z.of_nat k) with true by (symmetry; apply Z.leb_le; lia).
    rewrite buffer_holds_backupName by lia.
    rewrite buffer_holds_backupName by lia.
    unfold shift_one; run_io.
    rewrite regular_file_value.
    destruct (PathFileExists (backupName l (Z.of_nat k)) w
              && negb (PathIsDirectory (backupName l (Z.of_nat k)) w)).
    + destruct (MoveFile _ _ w) as [moved w'].
      apply IH; lia.
    + apply IH; lia.
Qed.

Lemma backup_file_fires (l : LOG_INFO) (w w1 : World) (fsize : Z) :
  0 <= nLogBackup l ->
  _get_filesize (Some (szLogPath l)) w = (fsize, w1) ->
  0 <= fsize -> nFileSize l <= fsize ->
  _backup_file (Some l) w = (0, snd (rotation_cascade l w1)).
Proof.
  intros Hn Hsize Hpos Hfire.
  unfold _backup_file, rotation_cascade, delete_oldest; run_io.
  rewrite Hsize.
  replace (fsize <? 0) with false by (symmetry; apply Z.ltb_ge; lia).
  replace (nFileSize l <=? fsize) with true by (symmetry; apply Z.leb_le; lia).
  rewrite buffer_holds_backupName by lia.
  rewrite regular_file_value.
  destruct (PathFileExists (backupName l (nLogBackup l)) w1
            && negb (PathIsDirectory (backupName l (nLogBackup l)) w1)).
  - destruct (DeleteFile _ w1) as [deleted w2].
    replace (nLogBackup l - 1) with (Z.of_nat (Z.to_nat (nLogBackup l)) - 1) by lia.
    rewrite shift_loop_fuel by lia.
    destruct (shift_down l (Z.to_nat (nLogBackup l)) w2) as [[] w3]. reflexivity.
  - replace (nLogBackup l - 1) with (Z.of_nat (Z.to_nat (nLogBackup l)) - 1) by lia.
    rewrite shift_loop_fuel by lia.
    destruct (shift_down l (Z.to_nat (nLogBackup l)) w1) as [[] w3]. reflexivity.
Qed.

Lemma backup_file_idle (l : LOG_INFO) (w w1 : World) (fsize : Z) :
  _get_filesize (Some (szLogPath l)) w = (fsize, w1) ->
  fsize < 0 \/ fsize < nFileSize l ->
  _backup_file (Some l) w = (0, w1).
Proof.
  intros Hsize Hidle.
  unfold _backup_file; run_io. rewrite Hsize.
  destruct (fsize <? 0) eqn:Hneg; [reflexivity|].
  apply Z.ltb_ge in Hneg.
  replace (nFileSize l <=? fsize) with false by (symmetry; apply Z.leb_gt; lia).
  reflexivity.
Qed.

(** ** Starting a channel *)

Lemma log_start_some (l0 : LOG_INFO) (path : string) :
  log_start (Some l0) (Some path) =
  (0, Some
        (let '(tmpDrive, tmpDir, tmpFname, tmpFext) := _splitpath path in
         let dir := snprintf (MAX_PATH + 1) (tmpDrive ++ tmpDir) in
         let fname := snprintf (MAX_PATH + 1) tmpFname in
         let fext := snprintf (MAX_PATH + 1) tmpFext in
         mkLOG_INFO (CS_ready 0)
           (snprintf (MAX_PATH + 1) (dir ++ fname ++ "_" ++ fmt_d 0 ++ fext))
           true MAX_FILE_SIZE MAX_LOG_BACKUP dir fname fext)).
Proof.
  unfold log_start, _copy_filepath.
  destruct (_splitpath path) as [[[tmpDrive tmpDir] tmpFname] tmpFext].
  reflexivity.
Qed.

(** A write changes nothing of the channel but its lock. *)
Lemma perform_keeps_fields (c : call) (l : LOG_INFO) (w : World) :
  exists cs, snd (fst (perform c (Some l) w)) = Some (set_stCS cs l).
Proof.
  destruct (accepted c (Some l)) eqn:Hacc.
  - rewrite perform_accepted by exact Hacc. cbv zeta.
    destruct (fopen _ _ _) as [[fp|] w2].
    + destruct (fclose _ _) as [rc w4].
      destruct (rc =? 0); eexists; reflexivity.
    + eexists; reflexivity.
  - rewrite perform_rejected by exact Hacc.
    exists (stCS l). destruct l; reflexivity.
Qed.

Lemma perform_all_keeps_fields (cs : list call) :
  forall (l : LOG_INFO) (w : World),
    exists cs', fst (perform_all cs (Some l) w) = Some (set_stCS cs' l).
Proof.
  induction cs as [|c cs IH]; intros l w.
  - exists (stCS l). destruct l; reflexivity.
  - cbn [perform_all]. unfold bind.
    destruct (perform c (Some l) w) as [[rc pst] w1] eqn:Hc.
    destruct (perform_keeps_fields c l w) as [cs1 H1].
    rewrite Hc in H1. cbn [fst snd] in H1 |- *. subst pst.
    destruct (IH (set_stCS cs1 l) w1) as [cs2 H2].
    exists cs2. rewrite H2. reflexivity.
Qed.

(** The rotation check does not look at the lock. *)
Lemma get_backupname_ignores_lock (l : LOG_INFO) (cs : CRITICAL_SECTION)
    (nBkNo : Z) (buf : option string) (nSize : Z) :
  _get_backupname (Some (set_stCS cs l)) nBkNo buf nSize =
  _get_backupname (Some l) nBkNo buf nSize.
Proof. reflexivity. Qed.

Lemma shift_loop_ignores_lock (l : LOG_INFO) (cs : CRITICAL_SECTION) (fuel : nat) :
  forall (nBkNo : Z) (szBefore szAfter : string) (w : World),
    shift_loop fuel (Some (set_stCS cs l)) nBkNo szBefore szAfter w =
    shift_loop fuel (Some l) nBkNo szBefore szAfter w.
Proof.
  induction fuel as [|fuel IH]; intros nBkNo szBefore szAfter w; [reflexivity|].
  cbn [shift_loop]. destruct (0 <=? nBkNo); [|reflexivity].
  rewrite !get_backupname_ignores_lock. run_io.
  destruct (regular_file _ w) as [[] w1].
  - destruct (MoveFile _ _ w1) as [moved w2]. apply IH.
  - apply IH.
Qed.

Lemma backup_file_ignores_lock (l : LOG_INFO) (cs : CRITICAL_SECTION) (w : World) :
  _backup_file (Some (set_stCS cs l)) w = _backup_file (Some l) w.
Proof.
  unfold _backup_file; run_io.
  change (szLogPath (set_stCS cs l)) with (szLogPath l).
  change (nFileSize (set_stCS cs l)) with (nFileSize l).
  change (nLogBackup (set_stCS cs l)) with (nLogBackup l).
  destruct (_get_filesize (Some (szLogPath l)) w) as [fsize w1].
  destruct (fsize <? 0); [reflexivity|].
  destruct (nFileSize l <=? fsize); [|reflexivity].
  rewrite get_backupname_ignores_lock.
  destruct (regular_file _ w1) as [r w2].
  destruct (if r then _ else _) as [[] w3].
  rewrite shift_loop_ignores_lock. reflexivity.
Qed.

(** The cascade of the code is the cascade stated on the platform. *)
Lemma backupName_is_name (l : LOG_INFO) (index : Z) :
  0 <= index <= nLogBackup l -> backupName l index = Cascade.name l index.
Proof.
  intros Hin. unfold backupName.
  rewrite get_backupname_in_range by exact Hin. reflexivity.
Qed.

Lemma shift_one_is_move_up (l : LOG_INFO) (index : Z) (w : World) :
  0 <= index < nLogBackup l ->
  shift_one l index w = (tt, Cascade.move_up l index w).
Proof.
  intros Hin. unfold shift_one, Cascade.move_up, Cascade.regular; run_io.
  rewrite regular_file_value.
  rewrite !backupName_is_name by lia.
  destruct (PathFileExists (Cascade.name l index) w
            && negb (PathIsDirectory (Cascade.name l index) w)); [|reflexivity].
  destruct (MoveFile _ _ w) as [moved w1]. reflexivity.
Qed.

Lemma shift_down_is_move_all_up (l : LOG_INFO) (k : nat) :
  Z.of_nat k <= nLogBackup l ->
  forall w : World, shift_down l k w = (tt, Cascade.move_all_up l k w).
Proof.
  induction k as [|k IH]; intros Hk w; [reflexivity|].
  cbn [shift_down Cascade.move_all_up]. unfold bind.
  rewrite shift_one_is_move_up by lia.
  apply IH. lia.
Qed.

Lemma rotation_cascade_is_run (l : LOG_INFO) (w : World) :
  0 <= nLogBackup l ->
  rotation_cascade l w = (tt, Cascade.run l w).
Proof.
  intros Hn.
  unfold rotation_cascade, delete_oldest, Cascade.run, Cascade.drop_oldest,
    Cascade.regular; run_io.
  rewrite regular_file_value.
  rewrite !backupName_is_name by lia.
  destruct (PathFileExists (Cascade.name l (nLogBackup l)) w
            && negb (PathIsDirectory (Cascade.name l (nLogBackup l)) w)).
  - destruct (DeleteFile _ w) as [deleted w1]. cbn [snd].
    apply shift_down_is_move_all_up. lia.
  - apply shift_down_is_move_all_up. lia.
Qed.

End LoggerFacts.

(** * The claims *)

(** ** Level names *)

(** C9: the level-name mapping is total.  Levels 1 to 4 give ERR, WAR, INF
    and DBG, and every other value of the level gives the text ???. *)
Theorem log_level_total :
  _log_level 1 = "ERR" /\ _log_level 2 = "WAR"
  /\ _log_level 3 = "INF" /\ _log_level 4 = "DBG"
  /\ forall enLevel : LOG_LEVEL, enLevel < 1 \/ 4 < enLevel ->
       _log_level enLevel = "???".
Proof.
  repeat split; try reflexivity.
  intros enLevel Hout. unfold _log_level, ERR, WAR, INF, DBG.
  destruct (Z.eqb_spec enLevel 1); [lia|].
  destruct (Z.eqb_spec enLevel 2); [lia|].
  destruct (Z.eqb_spec enLevel 3); [lia|].
  destruct (Z.eqb_spec enLevel 4); [lia|].
  reflexivity.
Qed.

Lemma log_level_total_witness :
  (0 < 1 \/ 4 < 0) /\ _log_level 0 = "???"
  /\ (-1 < 1 \/ 4 < -1) /\ _log_level (-1) = "???"
  /\ (5 < 1 \/ 4 < 5) /\ _log_level 5 = "???".
Proof.
  pose proof log_level_total as (_ & _ & _ & _ & Hother).
  assert (H0 : 0 < 1 \/ 4 < 0) by (left; lia).
  assert (H1 : -1 < 1 \/ 4 < -1) by (left; lia).
  assert (H5 : 5 < 1 \/ 4 < 5) by (right; lia).
  exact (conj H0 (conj (Hother 0 H0)
          (conj H1 (conj (Hother (-1) H1) (conj H5 (Hother 5 H5)))))).
Defined.

(** ** Backup names *)

(** C8, as amended: for every index from 0 to the backup count and every
    buffer of positive size [nSize], [_get_backupname] returns 0 and stores
    directory, stem, an underscore, the index in decimal and the extension,
    cut to the first [nSize - 1] characters, which is the whole name
    whenever the name is shorter than [nSize]; for a negative index and for
    an index above the backup count it returns -1 and leaves the buffer as
    it was, whatever the size. *)
Theorem get_backupname_result (l : LOG_INFO) (nBkNo : Z) (buf : string) (nSize : Z) :
  let name := szDir l ++ szFname l ++ "_" ++ fmt_d nBkNo ++ szFext l in
  (0 <= nBkNo <= nLogBackup l -> 0 < nSize ->
     _get_backupname (Some l) nBkNo (Some buf) nSize =
       (0, Some (substring 0 (Z.to_nat (nSize - 1)) name))
     /\ (Z.of_nat (String.length name) < nSize ->
         _get_backupname (Some l) nBkNo (Some buf) nSize = (0, Some name)))
  /\ (nBkNo < 0 \/ nLogBackup l < nBkNo ->
      _get_backupname (Some l) nBkNo (Some buf) nSize = (-1, Some buf)).
Proof.
  cbv zeta. split.
  - intros Hin Hpos. rewrite get_backupname_stores by exact Hin.
    rewrite snprintf_into_positive by exact Hpos.
    split; [reflexivity|].
    intros Hfit. unfold backup_text. rewrite snprintf_fits by exact Hfit.
    reflexivity.
  - intros Hout. apply get_backupname_out_of_range. exact Hout.
Qed.

Lemma get_backupname_result_witness :
  (0 <= 2 <= nLogBackup Scenario.app_info)
  /\ 0 < MAX_PATH + 1
  /\ Z.of_nat (String.length "C:/logs/app_2.log") < MAX_PATH + 1
  /\ _get_backupname (Some Scenario.app_info) 2 (Some "") (MAX_PATH + 1) =
       (0, Some "C:/logs/app_2.log")
  /\ (4 < 0 \/ nLogBackup Scenario.app_info < 4)
  /\ _get_backupname (Some Scenario.app_info) 4 (Some "kept") (MAX_PATH + 1) =
       (-1, Some "kept").
Proof.
  assert (Hin : 0 <= 2 <= nLogBackup Scenario.app_info) by (vm_compute; split; discriminate).
  assert (Hpos : 0 < MAX_PATH + 1) by reflexivity.
  assert (Hfit : Z.of_nat (String.length "C:/logs/app_2.log") < MAX_PATH + 1)
    by (vm_compute; reflexivity).
  assert (Hout : 4 < 0 \/ nLogBackup Scenario.app_info < 4)
    by (right; vm_compute; reflexivity).
  refine (conj Hin (conj Hpos (conj Hfit (conj _ (conj Hout _))))).
  - apply (get_backupname_result Scenario.app_info 2 "" (MAX_PATH + 1)).
    + exact Hin.
    + exact Hpos.
    + exact Hfit.
  - apply (get_backupname_result Scenario.app_info 4 "kept" (MAX_PATH + 1)).
    exact Hout.
Defined.

(** C8 as stated fails: a channel started on a long path has index 1 within
    its backup count, and the name stored for it is not directory, stem,
    underscore, index and extension: it stops after 260 characters. *)
Lemma get_backupname_cuts_long_name :
  exists l : LOG_INFO,
    Sim.started Scenario.long_path = Some l
    /\ 0 <= 1 <= nLogBackup l
    /\ fst (_get_backupname (Some l) 1 (Some "") (MAX_PATH + 1)) = 0
    /\ snd (_get_backupname (Some l) 1 (Some "") (MAX_PATH + 1)) <>
         Some (szDir l ++ szFname l ++ "_" ++ "1" ++ szFext l)
    /\ String.length (szDir l ++ szFname l ++ "_" ++ "1" ++ szFext l) = 308%nat
    /\ option_map String.length
         (snd (_get_backupname (Some l) 1 (Some "") (MAX_PATH + 1))) = Some 260%nat.
Proof.
  eexists. split; [vm_compute; reflexivity|].
  split; [vm_compute; split; discriminate|].
  split; [vm_compute; reflexivity|].
  split; [|split; vm_compute; reflexivity].
  intros Heq.
  apply (f_equal (option_map String.length)) in Heq.
  vm_compute in Heq. discriminate Heq.
Qed.

(** ** Stopping *)

(** C6, as amended: [log_end] fails, with -1, only for a null channel; for
    every channel, in use or not, it destroys the lock, marks the channel
    unused, leaves the other fields alone and returns 0. *)
Theorem log_end_result :
  log_end None = (-1, None)
  /\ forall l : LOG_INFO,
       log_end (Some l) =
       (0, Some (mkLOG_INFO CS_none (szLogPath l) false (nFileSize l)
                   (nLogBackup l) (szDir l) (szFname l) (szFext l))).
Proof.
  split; [reflexivity|]. intros l. reflexivity.
Qed.

(** C6 as stated fails: a channel that was never started, and a channel
    that was stopped before, are both stopped with success. *)
Lemma log_end_accepts_inactive :
  bUsed Sim.zeroed = false
  /\ fst (log_end (Some Sim.zeroed)) = 0
  /\ option_map bUsed (snd (log_end Scenario.app)) = Some false
  /\ fst (log_end (snd (log_end Scenario.app))) = 0.
Proof. repeat split; vm_compute; reflexivity. Qed.

(** ** Starting *)

(** C7, as amended: [log_start] fails, with -1 and without touching the
    channel, only for a null path (or a null channel); for every other
    path, the empty one included, it returns 0 and leaves a channel that
    owes nothing to its former contents: the decomposition of the path, the
    live path as the name of backup index 0, a fresh lock, the flag set,
    and the default threshold and backup count. *)
Theorem log_start_result {P : Platform} :
  (forall pstLog : option LOG_INFO, log_start pstLog None = (-1, pstLog))
  /\ (forall szPath : option string, log_start None szPath = (-1, None))
  /\ forall (l0 : LOG_INFO) (path : string),
       exists l : LOG_INFO,
         log_start (Some l0) (Some path) = (0, Some l)
         /\ (szDir l, szFname l, szFext l) = decompose path
         /\ szLogPath l = backupName l 0
         /\ stCS l = CS_ready 0
         /\ bUsed l = true
         /\ nFileSize l = MAX_FILE_SIZE
         /\ nLogBackup l = MAX_LOG_BACKUP.
Proof.
  split; [intros [l|]; reflexivity|].
  split; [intros [p|]; reflexivity|].
  intros l0 path. rewrite log_start_some. unfold decompose.
  destruct (_splitpath path) as [[[tmpDrive tmpDir] tmpFname] tmpFext].
  eexists. split; [reflexivity|].
  repeat split.
Qed.

(** C7 as stated fails: the empty path is accepted, and the live path of
    the channel is then the bare suffix of index 0. *)
Lemma log_start_accepts_empty_path :
  fst (Sim.start (Some Sim.zeroed) (Some "")) = 0
  /\ option_map szLogPath (snd (Sim.start (Some Sim.zeroed) (Some ""))) = Some "_0"
  /\ option_map bUsed (snd (Sim.start (Some Sim.zeroed) (Some ""))) = Some true.
Proof. repeat split; vm_compute; reflexivity. Qed.

(** ** Writes that are refused *)

(** C5: on a channel that is not in use (never started, or stopped), and
    whenever the message is null, [log_write] and [log_debug] return -1 and
    hand back the channel and the world exactly as they got them: nothing
    was locked, opened, created, renamed or deleted. *)
Theorem write_refused_without_effect {P : Platform} (pstLog : option LOG_INFO)
    (enLevel : LOG_LEVEL) (szFile : option string) (nLine : Z)
    (szFunc : option string) (szFmt : option string) (arg : va_list) (w : World) :
  inactive pstLog = true \/ szFmt = None ->
  log_write pstLog enLevel szFmt arg w = ((-1, pstLog), w)
  /\ log_debug pstLog enLevel szFile nLine szFunc szFmt arg w = ((-1, pstLog), w).
Proof.
  intros Hwhy.
  assert (Hw : accepted (Write enLevel szFmt arg) pstLog = false).
  { unfold accepted, inactive in *. destruct pstLog as [l|]; [|reflexivity].
    destruct Hwhy as [Hoff|Hnull].
    - apply negb_true_iff in Hoff. rewrite Hoff. reflexivity.
    - subst szFmt. apply andb_false_r. }
  assert (Hd : accepted (Debug enLevel szFile nLine szFunc szFmt arg) pstLog = false).
  { unfold accepted, inactive in *. destruct pstLog as [l|]; [|reflexivity].
    destruct Hwhy as [Hoff|Hnull].
    - apply negb_true_iff in Hoff. rewrite Hoff. reflexivity.
    - subst szFmt. destruct szFile, szFunc; apply andb_false_r. }
  split.
  - exact (perform_rejected (Write enLevel szFmt arg) pstLog w Hw).
  - exact (perform_rejected (Debug enLevel szFile nLine szFunc szFmt arg) pstLog w Hd).
Qed.

Lemma write_refused_without_effect_witness :
  (inactive (snd (log_end Scenario.app)) = true \/ Some "late" = None)
  /\ Sim.write (snd (log_end Scenario.app)) INF (Some "late") [] Scenario.due =
       ((-1, snd (log_end Scenario.app)), Scenario.due)
  /\ (inactive Scenario.app = true \/ @None string = None)
  /\ Sim.debug Scenario.app INF (Some "main.c") 7 (Some "main") None []
       Scenario.due = ((-1, Scenario.app), Scenario.due).
Proof.
  assert (Hoff : inactive (snd (log_end Scenario.app)) = true \/ Some "late" = None)
    by (left; vm_compute; reflexivity).
  assert (Hnull : inactive Scenario.app = true \/ @None string = None)
    by (right; reflexivity).
  refine (conj Hoff (conj _ (conj Hnull _))).
  - exact (proj1 (@write_refused_without_effect Sim.platform
             (snd (log_end Scenario.app)) INF None 0 None (Some "late") []
             Scenario.due Hoff)).
  - exact (proj2 (@write_refused_without_effect Sim.platform
             Scenario.app INF (Some "main.c") 7 (Some "main") None []
             Scenario.due Hnull)).
Defined.

(** ** What a write reports *)

(** C10: on a channel in use, with a format that is not null (and, for
    [log_debug], file and function names that are not null, so that the
    call gets as far as opening the file), [log_write] and [log_debug]
    return 0 whenever the live file opens for appending and closes with 0,
    whatever [fputs] returned in between: its result is bound to nothing.
    The lock is left once for the one time it was entered. *)
Theorem write_ignores_append_result {P : Platform} (c : call) (l : LOG_INFO)
    (w w2 w4 : World) (fp : FILE) :
  accepted c (Some l) = true ->
  fopen (szLogPath l) "ab+"
        (set_errno 0 (snd (_backup_file (Some (_log_lock l)) w))) = (Some fp, w2) ->
  fclose fp (snd (fputs (record_of c (GetLocalTime w2)) fp w2)) = (0, w4) ->
  perform c (Some l) w = ((0, Some (_log_unlock (_log_lock l))), w4).
Proof.
  intros Hacc Hopen Hclose.
  rewrite perform_accepted by exact Hacc. cbv zeta.
  rewrite Hopen, Hclose. reflexivity.
Qed.

Lemma write_ignores_append_result_witness :
  accepted Scenario.lost (Some Scenario.app_info) = true
  /\ Sim.sim_fopen Scenario.live "ab+"
       (Sim.with_err 0
          (snd (@_backup_file Sim.platform (Some (_log_lock Scenario.app_info))
                  Scenario.full))) =
     (Some (Scenario.live, true), Scenario.full_opened)
  /\ fst (Sim.sim_fputs
            (@record_of Sim.platform Scenario.lost Sim.noon)
            (Scenario.live, true) Scenario.full_opened) = -1
  /\ Sim.sim_fclose (Scenario.live, true)
       (snd (Sim.sim_fputs
               (@record_of Sim.platform Scenario.lost Sim.noon)
               (Scenario.live, true) Scenario.full_opened)) =
     (0, Scenario.full_refused)
  /\ Sim.write (Some Scenario.app_info) INF (Some "lost") [] Scenario.full =
     ((0, Some Scenario.app_info), Scenario.full_refused).
Proof.
  assert (Hacc : accepted Scenario.lost
                   (Some Scenario.app_info) = true) by reflexivity.
  assert (Hopen : Sim.sim_fopen Scenario.live "ab+"
       (Sim.with_err 0
          (snd (@_backup_file Sim.platform (Some (_log_lock Scenario.app_info))
                  Scenario.full))) =
     (Some (Scenario.live, true), Scenario.full_opened))
    by (vm_compute; reflexivity).
  assert (Hclose : Sim.sim_fclose (Scenario.live, true)
       (snd (Sim.sim_fputs
               (@record_of Sim.platform Scenario.lost Sim.noon)
               (Scenario.live, true) Scenario.full_opened)) =
     (0, Scenario.full_refused))
    by (vm_compute; reflexivity).
  refine (conj Hacc (conj Hopen (conj _ (conj Hclose _)))).
  - vm_compute; reflexivity.
  - exact (@write_ignores_append_result Sim.platform Scenario.lost
             Scenario.app_info Scenario.full Scenario.full_opened
             Scenario.full_refused (Scenario.live, true) Hacc Hopen Hclose).
Defined.

(** ** The live path *)

(** C4, as amended: for every path [log_start] accepts, the live path of
    the channel is the name of backup index 0 for the decomposition of the
    path, that is directory, stem, the suffix _0 and the extension, cut to
    the [MAX_PATH] characters the path buffer holds (the whole name when it
    is that short); and no sequence of writes changes the live path or the
    decomposition. *)
Theorem live_path_is_generation_zero {P : Platform} (l0 : LOG_INFO) (path : string) :
  exists l : LOG_INFO,
    log_start (Some l0) (Some path) = (0, Some l)
    /\ (szDir l, szFname l, szFext l) = decompose path
    /\ szLogPath l = backupName l 0
    /\ szLogPath l =
         snprintf (MAX_PATH + 1) (szDir l ++ szFname l ++ "_0" ++ szFext l)
    /\ (Z.of_nat (String.length (szDir l ++ szFname l ++ "_0" ++ szFext l))
          <= MAX_PATH ->
        szLogPath l = szDir l ++ szFname l ++ "_0" ++ szFext l)
    /\ forall (cs : list call) (w : World),
         exists l' : LOG_INFO,
           fst (perform_all cs (Some l) w) = Some l' /\ same_names l l'.
Proof.
  rewrite log_start_some. unfold decompose.
  destruct (_splitpath path) as [[[tmpDrive tmpDir] tmpFname] tmpFext].
  eexists. split; [reflexivity|].
  split; [reflexivity|].
  split; [reflexivity|].
  split; [reflexivity|].
  split.
  - intros Hfit. cbn [szLogPath szDir szFname szFext] in *.
    apply snprintf_fits. change (fmt_d 0) with "0".
    change ("_" ++ "0" ++ ?e) with ("_0" ++ e). lia.
  - intros cs w.
    destruct (perform_all_keeps_fields cs
                (mkLOG_INFO (CS_ready 0)
                   (snprintf (MAX_PATH + 1)
                      (snprintf (MAX_PATH + 1) (tmpDrive ++ tmpDir)
                       ++ snprintf (MAX_PATH + 1) tmpFname ++ "_" ++ fmt_d 0
                       ++ snprintf (MAX_PATH + 1) tmpFext))
                   true MAX_FILE_SIZE MAX_LOG_BACKUP
                   (snprintf (MAX_PATH + 1) (tmpDrive ++ tmpDir))
                   (snprintf (MAX_PATH + 1) tmpFname)
                   (snprintf (MAX_PATH + 1) tmpFext)) w) as [cs' Hcs].
    eexists. split; [exact Hcs|].
    repeat split.
Qed.

Lemma live_path_is_generation_zero_witness :
  Z.of_nat (String.length ("C:/logs/" ++ "app" ++ "_0" ++ ".log")) <= MAX_PATH
  /\ Sim.start (Some Sim.zeroed) (Some "C:/logs/app.log") =
       (0, Some Scenario.app_info)
  /\ szLogPath Scenario.app_info = "C:/logs/" ++ "app" ++ "_0" ++ ".log"
  /\ exists l' : LOG_INFO,
       fst (@perform_all Sim.platform [Scenario.note; Scenario.probe; Scenario.lost]
              (Some Scenario.app_info) Scenario.due) = Some l'
       /\ same_names Scenario.app_info l'.
Proof.
  destruct (@live_path_is_generation_zero Sim.platform Sim.zeroed "C:/logs/app.log")
    as (l & Hstart & _ & _ & _ & Hfit & Hkeep).
  assert (Hrun : @log_start Sim.platform (Some Sim.zeroed) (Some "C:/logs/app.log") =
                 (0, Some Scenario.app_info)) by (vm_compute; reflexivity).
  rewrite Hrun in Hstart. injection Hstart as <-.
  assert (Hlen : Z.of_nat (String.length ("C:/logs/" ++ "app" ++ "_0" ++ ".log"))
                 <= MAX_PATH) by (vm_compute; discriminate).
  exact (conj Hlen (conj Hrun (conj (Hfit Hlen)
           (Hkeep [Scenario.note; Scenario.probe; Scenario.lost] Scenario.due)))).
Defined.

(** C4 as stated fails: [log_start] accepts a path whose parts fit the C
    runtime's limits, and the live path is not directory, stem, _0 and
    extension: of the 308 characters of that name it keeps 260. *)
Lemma live_path_cut_for_long_path :
  exists l : LOG_INFO,
    Sim.start (Some Sim.zeroed) (Some Scenario.long_path) = (0, Some l)
    /\ szLogPath l <> szDir l ++ szFname l ++ "_0" ++ szFext l
    /\ String.length (szDir l ++ szFname l ++ "_0" ++ szFext l) = 308%nat
    /\ String.length (szLogPath l) = 260%nat.
Proof.
  eexists. split; [vm_compute; reflexivity|].
  split; [|split; vm_compute; reflexivity].
  intros Heq. apply (f_equal String.length) in Heq.
  vm_compute in Heq. discriminate Heq.
Qed.

(** ** The lock *)

(** X1: On a channel in use whose lock is initialised, a write that cannot
    open the live file returns with the lock entered once more than
    before; every other accepted write returns with the lock as it was. *)
Lemma write_lock_balance {P : Platform} (c : call) (l : LOG_INFO) (n : nat)
    (w : World) :
  accepted c (Some l) = true ->
  stCS l = CS_ready n ->
  let w1 := set_errno 0 (snd (_backup_file (Some (_log_lock l)) w)) in
  option_map stCS (snd (fst (perform c (Some l) w))) =
  match fst (fopen (szLogPath l) "ab+" w1) with
  | None => Some (CS_ready (S n))
  | Some _ => Some (CS_ready n)
  end.
Proof.
  intros Hacc Hcs. cbv zeta.
  rewrite perform_accepted by exact Hacc. cbv zeta.
  destruct (fopen _ _ _) as [[fp|] w2]; cbn [fst snd].
  - destruct (fclose _ _) as [rc w4].
    destruct (rc =? 0); cbn [fst snd option_map];
      unfold _log_unlock, _log_lock; cbn [stCS set_stCS]; rewrite Hcs; reflexivity.
  - cbn [option_map]. unfold _log_lock; cbn [stCS set_stCS]. rewrite Hcs. reflexivity.
Qed.

(** C1, on the code: the channel is started and its lock is free; the live
    file cannot be opened (a directory has its name, or the file is
    read-only); [log_write] and [log_debug] return -1 and the lock is still
    held.  When the close fails instead, the lock is released. *)
Theorem write_keeps_lock_when_open_fails :
  option_map stCS Scenario.app = Some (CS_ready 0)
  /\ (let r := Sim.write Scenario.app INF (Some "started") [] Scenario.blocked in
      fst (fst r) = -1
      /\ option_map stCS (snd (fst r)) = Some (CS_ready 1)
      /\ option_map (fun l => held (stCS l)) (snd (fst r)) = Some true)
  /\ (let r := Sim.debug Scenario.app INF (Some "main.c") 42 (Some "main")
                 (Some "started") [] Scenario.write_protected in
      fst (fst r) = -1
      /\ option_map stCS (snd (fst r)) = Some (CS_ready 1)
      /\ option_map (fun l => held (stCS l)) (snd (fst r)) = Some true)
  /\ (let r := Sim.write Scenario.app INF (Some "started") []
                 Scenario.failing_close in
      fst (fst r) = -1
      /\ option_map (fun l => held (stCS l)) (snd (fst r)) = Some false).
Proof.
  split; [vm_compute; reflexivity|].
  split; [cbv zeta; repeat split; vm_compute; reflexivity|].
  split; [cbv zeta; repeat split; vm_compute; reflexivity|].
  cbv zeta; split; vm_compute; reflexivity.
Qed.

(** ** Rotation *)

(** C2: whenever rotation fires (the size query returned a size that is
    not negative and not below the threshold), [_backup_file] leaves the
    world the cascade leaves, the cascade being stated on the platform
    alone ([Cascade.run]): delete the name of index [nLogBackup] if a
    regular file, not a directory, is there; then, for each index from
    [nLogBackup - 1] down to 0, rename the name of the index to the name of
    the next index if a regular file is there.  What [DeleteFile] and
    [MoveFile] return is dropped: [_backup_file] returns 0, and the write
    around it returns 0 as soon as the live file opens and closes. *)
Theorem rotation_cascade_best_effort {P : Platform} (l : LOG_INFO)
    (w w1 : World) (fsize : Z) :
  0 <= nLogBackup l ->
  _get_filesize (Some (szLogPath l)) w = (fsize, w1) ->
  0 <= fsize -> nFileSize l <= fsize ->
  _backup_file (Some l) w = (0, Cascade.run l w1)
  /\ forall (c : call) (fp : FILE) (w2 w4 : World),
       accepted c (Some l) = true ->
       fopen (szLogPath l) "ab+" (set_errno 0 (Cascade.run l w1)) =
         (Some fp, w2) ->
       fclose fp (snd (fputs (record_of c (GetLocalTime w2)) fp w2)) = (0, w4) ->
       fst (fst (perform c (Some l) w)) = 0.
Proof.
  intros Hn Hsize Hpos Hfire.
  pose proof (backup_file_fires l w Hn Hsize Hpos Hfire) as Hcascade.
  rewrite (rotation_cascade_is_run l w1 Hn) in Hcascade. cbn [snd] in Hcascade.
  split; [exact Hcascade|].
  intros c fp w2 w4 Hacc Hopen Hclose.
  rewrite perform_accepted by exact Hacc. cbv zeta.
  unfold _log_lock. rewrite backup_file_ignores_lock, Hcascade. cbn [snd].
  rewrite Hopen, Hclose. reflexivity.
Qed.

(** The theorem at three inputs.  On the recording platform the calls of
    the cascade appear in order.  On the in-memory file system, in the
    world [due], the files change their names; in the world [stuck] the
    delete and every rename fail and the write still returns 0. *)
Lemma rotation_cascade_best_effort_witness :
  0 <= nLogBackup Scenario.app_info
  /\ 0 <= 1024
  /\ nFileSize Scenario.app_info <= 1024
  /\ @_get_filesize Trace.platform (Some (szLogPath Scenario.app_info)) [] =
       (1024, [Trace.Opened Scenario.live "rb"; Trace.Closed Scenario.live])
  /\ @_backup_file Trace.platform (Some Scenario.app_info) [] =
       (0, [Trace.Opened Scenario.live "rb"; Trace.Closed Scenario.live;
            Trace.Deleted Scenario.gen3;
            Trace.Moved Scenario.gen2 Scenario.gen3;
            Trace.Moved Scenario.gen1 Scenario.gen2;
            Trace.Moved Scenario.live Scenario.gen1])
  /\ @_get_filesize Sim.platform (Some (szLogPath Scenario.app_info)) Scenario.due =
       (1024, Scenario.due)
  /\ @_backup_file Sim.platform (Some Scenario.app_info) Scenario.due =
       (0, @Cascade.run Sim.platform Scenario.app_info Scenario.due)
  /\ map (fun '(p, n) =>
            (p, match n with Sim.File ps _ => Sim.size_of ps | Sim.Dir => -1 end))
         (Sim.disk (@Cascade.run Sim.platform Scenario.app_info Scenario.due)) =
       [(Scenario.gen1, 1048576); (Scenario.gen2, 3)]
  /\ @_get_filesize Sim.platform (Some (szLogPath Scenario.app_info)) Scenario.stuck =
       (1024, Scenario.stuck)
  /\ fst (Sim.sim_delete Scenario.gen3 Scenario.stuck) = false
  /\ fst (Sim.sim_move Scenario.gen1 Scenario.gen2 Scenario.stuck) = false
  /\ fst (Sim.sim_move Scenario.live Scenario.gen1 Scenario.stuck) = false
  /\ fst (fst (@perform Sim.platform Scenario.note (Some Scenario.app_info)
                 Scenario.stuck)) = 0.
Proof.
  assert (Hn : 0 <= nLogBackup Scenario.app_info) by (vm_compute; discriminate).
  assert (Hpos : 0 <= 1024) by (vm_compute; discriminate).
  assert (Hfire : nFileSize Scenario.app_info <= 1024) by (vm_compute; discriminate).
  assert (Hrec : @_get_filesize Trace.platform (Some (szLogPath Scenario.app_info)) [] =
                 (1024, [Trace.Opened Scenario.live "rb"; Trace.Closed Scenario.live]))
    by reflexivity.
  assert (Hdue : @_get_filesize Sim.platform
                   (Some (szLogPath Scenario.app_info)) Scenario.due =
                 (1024, Scenario.due)) by reflexivity.
  assert (Hstuck : @_get_filesize Sim.platform
                     (Some (szLogPath Scenario.app_info)) Scenario.stuck =
                   (1024, Scenario.stuck)) by reflexivity.
  destruct (@rotation_cascade_best_effort Trace.platform Scenario.app_info
              [] _ 1024 Hn Hrec Hpos Hfire) as [Hcalls _].
  destruct (@rotation_cascade_best_effort Sim.platform Scenario.app_info
              Scenario.due Scenario.due 1024 Hn Hdue Hpos Hfire) as [Hmoved _].
  destruct (@rotation_cascade_best_effort Sim.platform Scenario.app_info
              Scenario.stuck Scenario.stuck 1024 Hn Hstuck Hpos Hfire)
    as [_ Hwrite].
  refine (conj Hn (conj Hpos (conj Hfire (conj Hrec (conj Hcalls
            (conj Hdue (conj Hmoved (conj _ (conj Hstuck
               (conj _ (conj _ (conj _ _)))))))))))).
  - vm_compute; reflexivity.
  - vm_compute; reflexivity.
  - vm_compute; reflexivity.
  - vm_compute; reflexivity.
  - refine (Hwrite Scenario.note (Scenario.live, true)
              (snd (Sim.sim_fopen Scenario.live "ab+"
                      (Sim.with_err 0
                         (@Cascade.run Sim.platform Scenario.app_info
                            Scenario.stuck))))
              (snd (Sim.sim_fclose (Scenario.live, true) _)) _ _ _).
    + reflexivity.
    + apply pair_eta. vm_compute; reflexivity.
    + apply pair_eta. vm_compute; reflexivity.
Defined.

(** C3, as amended: the rotation check opens the live file for reading.
    If that fails (the file does not exist, in particular) it returns 0
    and does nothing more.  Otherwise it takes the length shifted right by
    10, the length in units of 1024 bytes rounded down, and closes the
    file; it performs the cascade if and only if the close returned 0 and
    the threshold is at most that number of units, and returns 0 either
    way. *)
Theorem rotation_check {P : Platform} (l : LOG_INFO) (w : World) :
  0 <= nFileSize l -> 0 <= nLogBackup l ->
  (forall w1 : World,
     fopen (szLogPath l) "rb" w = (None, w1) ->
     _backup_file (Some l) w = (0, w1))
  /\ (forall (fp : FILE) (w1 w2 : World) (rc : Z),
        fopen (szLogPath l) "rb" w = (Some fp, w1) ->
        fclose fp w1 = (rc, w2) ->
        let units := Z.shiftr (_filelength fp w1) 10 in
        units = _filelength fp w1 / 1024
        /\ _backup_file (Some l) w =
           (0, if (rc =? 0) && (nFileSize l <=? units)
               then snd (rotation_cascade l w2) else w2)).
Proof.
  intros Hthreshold Hn. split.
  - intros w1 Hopen.
    apply (backup_file_idle l w (get_filesize_open_fails _ w Hopen)).
    left; lia.
  - intros fp w1 w2 rc Hopen Hclose. cbv zeta.
    split; [apply (Z.shiftr_div_pow2 _ 10); lia|].
    pose proof (get_filesize_opened _ w Hopen Hclose) as Hsize.
    destruct (rc =? 0); cbn [andb].
    + destruct (Z.leb_spec (nFileSize l) (Z.shiftr (_filelength fp w1) 10)).
      * apply (backup_file_fires l w Hn Hsize); lia.
      * apply (backup_file_idle l w Hsize). right; lia.
    + apply (backup_file_idle l w Hsize). left; lia.
Qed.

Lemma rotation_check_witness :
  0 <= nFileSize Scenario.app_info
  /\ 0 <= nLogBackup Scenario.app_info
  /\ Sim.sim_fopen Scenario.live "rb" Scenario.due =
       (Some (Scenario.live, false), Scenario.due)
  /\ Sim.sim_fclose (Scenario.live, false) Scenario.due = (0, Scenario.due)
  /\ Z.shiftr (Sim.sim_filelength (Scenario.live, false) Scenario.due) 10 = 1024
  /\ @_backup_file Sim.platform (Some Scenario.app_info) Scenario.due =
       (0, snd (@rotation_cascade Sim.platform Scenario.app_info Scenario.due))
  /\ Sim.sim_fopen Scenario.live "rb" Sim.empty_world =
       (None, Sim.with_err Sim.ENOENT Sim.empty_world)
  /\ @_backup_file Sim.platform (Some Scenario.app_info) Sim.empty_world =
       (0, Sim.with_err Sim.ENOENT Sim.empty_world).
Proof.
  assert (Hthreshold : 0 <= nFileSize Scenario.app_info) by (vm_compute; discriminate).
  assert (Hn : 0 <= nLogBackup Scenario.app_info) by (vm_compute; discriminate).
  assert (Hopen : Sim.sim_fopen Scenario.live "rb" Scenario.due =
                  (Some (Scenario.live, false), Scenario.due)) by reflexivity.
  assert (Hclose : Sim.sim_fclose (Scenario.live, false) Scenario.due =
                   (0, Scenario.due)) by reflexivity.
  assert (Hmissing : Sim.sim_fopen Scenario.live "rb" Sim.empty_world =
                     (None, Sim.with_err Sim.ENOENT Sim.empty_world)) by reflexivity.
  destruct (@rotation_check Sim.platform Scenario.app_info Scenario.due
              Hthreshold Hn) as [_ Hopened].
  destruct (@rotation_check Sim.platform Scenario.app_info Sim.empty_world
              Hthreshold Hn) as [Hfailed _].
  destruct (Hopened (Scenario.live, false) Scenario.due Scenario.due 0
              Hopen Hclose) as [_ Hrun].
  refine (conj Hthreshold (conj Hn (conj Hopen (conj Hclose
            (conj _ (conj Hrun (conj Hmissing (Hfailed _ Hmissing)))))))).
  vm_compute; reflexivity.
Defined.

(** C3 as stated fails: the live file opens and holds 1024 units, the
    threshold of the channel, and the check does not rotate, because the
    close of the size query failed: after it no file has changed its name,
    while the cascade would have moved the live file to index 1. *)
Lemma rotation_skipped_when_size_query_close_fails :
  Sim.sim_fopen Scenario.live "rb" Scenario.failing_close =
    (Some (Scenario.live, false), Scenario.failing_close)
  /\ nFileSize Scenario.app_info <=
       Z.shiftr (Sim.sim_filelength (Scenario.live, false) Scenario.failing_close) 10
  /\ fst (Sim.sim_fclose (Scenario.live, false) Scenario.failing_close) = -1
  /\ map fst (Sim.disk (snd (@_backup_file Sim.platform (Some Scenario.app_info)
                              Scenario.failing_close))) =
       [Scenario.live; Scenario.gen1; Scenario.gen3]
  /\ map fst (Sim.disk (snd (@rotation_cascade Sim.platform Scenario.app_info
                              (snd (Sim.sim_fclose (Scenario.live, false)
                                      Scenario.failing_close))))) =
       [Scenario.gen1; Scenario.gen2].
Proof.
  split; [reflexivity|].
  split; [vm_compute; discriminate|].
  split; [vm_compute; reflexivity|].
  split; vm_compute; reflexivity.
Qed.

(** * Further facts

    What the functions do beyond the claims: buffers, names, the lock over
    sequences of calls, and rotation on the in-memory file system. *)

(** ** Strings *)

Lemma length_append (a b : string) :
  String.length (a ++ b) = (String.length a + String.length b)%nat.
Proof. induction a as [|c a IH]; simpl; [reflexivity|]. rewrite IH. reflexivity. Qed.

Lemma substring_length (s : string) (n : nat) :
  (String.length (substring 0 n s) <= n)%nat
  /\ (String.length (substring 0 n s) <= String.length s)%nat.
Proof.
  revert n; induction s as [|c s IH]; intros [|n]; simpl; try lia.
  specialize (IH n). lia.
Qed.

Lemma substring_of_prefix (a b : string) (n : nat) :
  (n <= String.length a)%nat -> substring 0 n (a ++ b) = substring 0 n a.
Proof.
  revert n; induction a as [|c a IH]; intros [|n] H; simpl in *;
    try reflexivity; try lia.
  - destruct b; reflexivity.
  - f_equal. apply IH. lia.
Qed.

Lemma append_cancel_l (a x y : string) : a ++ x = a ++ y -> x = y.
Proof.
  induction a as [|c a IH]; simpl; intros H; [exact H|].
  injection H as H. apply IH. exact H.
Qed.

Lemma append_split (a b x y : string) :
  String.length a = String.length b -> a ++ x = b ++ y -> a = b /\ x = y.
Proof.
  revert b; induction a as [|c a IH]; intros [|c' b] Hlen H; simpl in *;
    try discriminate.
  - split; [reflexivity|exact H].
  - injection H as Hc H. injection Hlen as Hlen.
    destruct (IH b Hlen H) as [-> ->]. subst. split; reflexivity.
Qed.

Lemma append_cancel_r (a b e : string) : a ++ e = b ++ e -> a = b.
Proof.
  intros H. apply (append_split a b e e); [|exact H].
  apply (f_equal String.length) in H. rewrite !length_append in H. lia.
Qed.

(** Decimal printing loses nothing: different numbers print differently. *)
Lemma fmt_d_inj (a b : Z) : fmt_d a = fmt_d b -> a = b.
Proof.
  unfold fmt_d. intros H.
  assert (Hnn : forall z, Z.to_int z <> Decimal.Pos Decimal.Nil
                          /\ Z.to_int z <> Decimal.Neg Decimal.Nil).
  { intros [|p|p]; simpl; split; try discriminate;
      intros [= Hp]; exact (DecimalPos.Unsigned.to_uint_nonnil p Hp). }
  apply (f_equal NilZero.int_of_string) in H.
  rewrite !NilZero.isi in H by apply Hnn.
  injection H as H. apply DecimalZ.to_int_inj. exact H.
Qed.

Lemma append_assoc (a b c : string) : (a ++ b) ++ c = a ++ b ++ c.
Proof. induction a as [|x a IH]; simpl; [reflexivity|]. rewrite IH. reflexivity. Qed.

Lemma substring_short (s : string) (n : nat) :
  (String.length (substring 0 n s) < n)%nat -> substring 0 n s = s.
Proof.
  revert n; induction s as [|c s IH]; intros [|n] H; simpl in *;
    try reflexivity; try lia.
  f_equal. apply IH. lia.
Qed.

(** ** The lock over sequences of calls *)

Lemma write_lock_balance_witness :
  accepted Scenario.lost (Some Scenario.app_info) = true
  /\ stCS Scenario.app_info = CS_ready 0
  /\ option_map stCS
       (snd (fst (@perform Sim.platform Scenario.lost (Some Scenario.app_info)
                    Scenario.blocked))) = Some (CS_ready 1)
  /\ option_map stCS
       (snd (fst (@perform Sim.platform Scenario.lost (Some Scenario.app_info)
                    Sim.empty_world))) = Some (CS_ready 0).
Proof.
  assert (Hacc : accepted Scenario.lost (Some Scenario.app_info) = true)
    by reflexivity.
  assert (Hcs : stCS Scenario.app_info = CS_ready 0) by reflexivity.
  refine (conj Hacc (conj Hcs (conj _ _))).
  - exact (@write_lock_balance Sim.platform Scenario.lost Scenario.app_info 0
             Scenario.blocked Hacc Hcs).
  - exact (@write_lock_balance Sim.platform Scenario.lost Scenario.app_info 0
             Sim.empty_world Hacc Hcs).
Defined.

Lemma unlock_after_lock (l : LOG_INFO) (n : nat) :
  stCS l = CS_ready n -> _log_unlock (_log_lock l) = l.
Proof.
  destruct l as [cs p u fs nb d f e]; simpl; intros ->. reflexivity.
Qed.

Lemma inactive_not_accepted {P : Platform} (c : call) (pstLog : option LOG_INFO) :
  inactive pstLog = true -> accepted c pstLog = false.
Proof.
  unfold inactive, accepted. destruct pstLog as [l|]; [|reflexivity].
  intros H. apply negb_true_iff in H. rewrite H. reflexivity.
Qed.

Lemma inactive_ignores_writes {P : Platform} (cs : list call)
    (pstLog : option LOG_INFO) (w : World) :
  inactive pstLog = true -> perform_all cs pstLog w = (pstLog, w).
Proof.
  intros Hoff. induction cs as [|c cs IH]; [reflexivity|].
  cbn [perform_all]. unfold bind.
  rewrite (perform_rejected c pstLog w (inactive_not_accepted c pstLog Hoff)).
  exact IH.
Qed.

(** X2: On a platform where opening for append never fails, no sequence of
    writes, accepted or refused, changes anything of a channel whose lock
    is initialised: every enter of the lock is matched by a leave. *)
Theorem writes_leave_channel_as_it_was {P : Platform} :
  (forall (path : string) (w : World), fst (fopen path "ab+" w) <> None) ->
  forall (cs : list call) (l : LOG_INFO) (n : nat) (w : World),
    stCS l = CS_ready n ->
    fst (perform_all cs (Some l) w) = Some l.
Proof.
  intros Hopen cs. induction cs as [|c cs IH]; intros l n w Hcs; [reflexivity|].
  cbn [perform_all]. unfold bind.
  destruct (perform c (Some l) w) as [[rc pst] w1] eqn:Hc. cbn [snd].
  assert (Hpst : pst = Some l).
  { destruct (accepted c (Some l)) eqn:Hacc.
    - rewrite perform_accepted in Hc by exact Hacc. cbv zeta in Hc.
      specialize (Hopen (szLogPath l)
                    (set_errno 0 (snd (_backup_file (Some (_log_lock l)) w)))).
      destruct (fopen _ _ _) as [[fp|] w2]; [|exfalso; apply Hopen; reflexivity].
      destruct (fclose _ _) as [rc' w4].
      rewrite (unlock_after_lock l Hcs) in Hc.
      destruct (rc' =? 0); injection Hc as _ <- _; reflexivity.
    - rewrite perform_rejected in Hc by exact Hacc.
      injection Hc as _ <- _. reflexivity. }
  subst pst. apply (IH l n w1 Hcs).
Qed.

Lemma writes_leave_channel_as_it_was_witness :
  (forall (path : string) (w : list Trace.event),
     fst (@fopen Trace.platform path "ab+" w) <> None)
  /\ stCS Scenario.app_info = CS_ready 0
  /\ fst (@perform_all Trace.platform Terms.mixed (Some Scenario.app_info) []) =
     Some Scenario.app_info.
Proof.
  assert (Hopen : forall (path : string) (w : list Trace.event),
             fst (@fopen Trace.platform path "ab+" w) <> None)
    by (intros path w; simpl; discriminate).
  assert (Hcs : stCS Scenario.app_info = CS_ready 0) by reflexivity.
  exact (conj Hopen (conj Hcs
           (@writes_leave_channel_as_it_was Trace.platform Hopen _
              Scenario.app_info 0 [] Hcs))).
Defined.

(** X3: Once [log_end] has run, the channel is unused, and no sequence of
    writes changes the channel or the world any more. *)
Theorem stopped_channel_ignores_writes {P : Platform} (pstLog : option LOG_INFO)
    (cs : list call) (w : World) :
  inactive (snd (log_end pstLog)) = true
  /\ perform_all cs (snd (log_end pstLog)) w = (snd (log_end pstLog), w).
Proof.
  assert (Hoff : inactive (snd (log_end pstLog)) = true)
    by (destruct pstLog; reflexivity).
  split; [exact Hoff|].
  apply inactive_ignores_writes. exact Hoff.
Qed.

(** ** Names of generations *)

(** X4: Indices within the backup count whose names fit the path buffer get
    different names. *)
Theorem backup_names_distinct (l : LOG_INFO) (i j : Z) (bi bj : string) :
  0 <= i <= nLogBackup l -> 0 <= j <= nLogBackup l -> i <> j ->
  Z.of_nat (String.length (backup_text l i)) <= MAX_PATH ->
  Z.of_nat (String.length (backup_text l j)) <= MAX_PATH ->
  snd (_get_backupname (Some l) i (Some bi) (MAX_PATH + 1)) <>
  snd (_get_backupname (Some l) j (Some bj) (MAX_PATH + 1)).
Proof.
  intros Hi Hj Hij Hfi Hfj.
  rewrite !get_backupname_in_range by assumption. cbn [snd].
  rewrite !snprintf_fits by (unfold MAX_PATH in *; lia).
  unfold backup_text. intros [= H].
  apply append_cancel_l, append_cancel_l in H.
  simpl in H. injection H as H.
  apply append_cancel_r in H. apply Hij, fmt_d_inj, H.
Qed.

Lemma backup_names_distinct_witness :
  0 <= 0 <= nLogBackup Scenario.app_info
  /\ 0 <= 1 <= nLogBackup Scenario.app_info
  /\ 0 <> 1
  /\ Z.of_nat (String.length (backup_text Scenario.app_info 0)) <= MAX_PATH
  /\ Z.of_nat (String.length (backup_text Scenario.app_info 1)) <= MAX_PATH
  /\ snd (_get_backupname (Some Scenario.app_info) 0 (Some "") (MAX_PATH + 1)) <>
     snd (_get_backupname (Some Scenario.app_info) 1 (Some "") (MAX_PATH + 1)).
Proof.
  assert (H0 : 0 <= 0 <= nLogBackup Scenario.app_info) by (vm_compute; split; discriminate).
  assert (H1 : 0 <= 1 <= nLogBackup Scenario.app_info) by (vm_compute; split; discriminate).
  assert (Hne : 0 <> 1) by discriminate.
  assert (Hf0 : Z.of_nat (String.length (backup_text Scenario.app_info 0)) <= MAX_PATH)
    by (vm_compute; discriminate).
  assert (Hf1 : Z.of_nat (String.length (backup_text Scenario.app_info 1)) <= MAX_PATH)
    by (vm_compute; discriminate).
  exact (conj H0 (conj H1 (conj Hne (conj Hf0 (conj Hf1
           (@backup_names_distinct Scenario.app_info 0 1 "" "" H0 H1 Hne Hf0 Hf1)))))).
Defined.

(** X5: When directory and stem alone fill the path buffer, every index within
    the backup count gets the same name: the suffix that tells generations
    apart is cut off. *)
Theorem backup_names_collide_when_cut (l : LOG_INFO) (i j : Z) (bi bj : string) :
  MAX_PATH <= Z.of_nat (String.length (szDir l ++ szFname l)) ->
  0 <= i <= nLogBackup l -> 0 <= j <= nLogBackup l ->
  _get_backupname (Some l) i (Some bi) (MAX_PATH + 1) =
  _get_backupname (Some l) j (Some bj) (MAX_PATH + 1).
Proof.
  intros Hfull Hi Hj.
  rewrite !get_backupname_in_range by assumption.
  unfold backup_text, snprintf.
  rewrite <- !(append_assoc (szDir l) (szFname l)).
  rewrite !(substring_of_prefix (szDir l ++ szFname l))
    by (unfold MAX_PATH in *; lia).
  reflexivity.
Qed.

Lemma backup_names_collide_when_cut_witness :
  exists l : LOG_INFO,
    Sim.started Scenario.long_path = Some l
    /\ MAX_PATH <= Z.of_nat (String.length (szDir l ++ szFname l))
    /\ 0 <= 0 <= nLogBackup l /\ 0 <= 1 <= nLogBackup l
    /\ _get_backupname (Some l) 0 (Some "") (MAX_PATH + 1) =
       _get_backupname (Some l) 1 (Some "") (MAX_PATH + 1).
Proof.
  eexists. split; [vm_compute; reflexivity|].
  match goal with
  | |- ?A /\ ?B /\ ?C /\ _ =>
      assert (Hfull : A) by (vm_compute; discriminate);
      assert (H0 : B) by (vm_compute; split; discriminate);
      assert (H1 : C) by (vm_compute; split; discriminate)
  end.
  exact (conj Hfull (conj H0 (conj H1
           (backup_names_collide_when_cut _ "" "" Hfull H0 H1)))).
Defined.

(** X6: Whatever [_splitpath] returns, [log_start] leaves at most [MAX_PATH]
    characters in each of the four strings of the channel, one less than
    the arrays hold. *)
Theorem log_start_fields_fit {P : Platform} (l0 : LOG_INFO) (path : string) :
  exists l : LOG_INFO,
    log_start (Some l0) (Some path) = (0, Some l)
    /\ Z.of_nat (String.length (szLogPath l)) <= MAX_PATH
    /\ Z.of_nat (String.length (szDir l)) <= MAX_PATH
    /\ Z.of_nat (String.length (szFname l)) <= MAX_PATH
    /\ Z.of_nat (String.length (szFext l)) <= MAX_PATH.
Proof.
  rewrite log_start_some.
  destruct (_splitpath path) as [[[tmpDrive tmpDir] tmpFname] tmpFext].
  eexists. split; [reflexivity|]. cbn [szLogPath szDir szFname szFext].
  unfold snprintf, MAX_PATH.
  repeat split;
    match goal with
    | |- Z.of_nat (String.length (substring 0 ?n ?s)) <= _ =>
        pose proof (proj1 (substring_length s n)); lia
    end.
Qed.

(** ** The line of a record *)

Lemma zeros_length (n : nat) : String.length (zeros n) = n.
Proof. induction n as [|n IH]; simpl; [reflexivity|]. rewrite IH. reflexivity. Qed.

Lemma fmt_0d_length (w : nat) (z : Z) :
  0 <= z ->
  String.length (fmt_0d w z) = Nat.max w (String.length (fmt_d z)).
Proof.
  intros Hz. unfold fmt_0d.
  replace (z <? 0) with false by (symmetry; apply Z.ltb_ge; lia).
  cbv zeta. rewrite length_append, zeros_length. lia.
Qed.

Lemma all_from_spec (f : Z -> bool) (n : nat) :
  forall z0 : Z,
    Terms.all_from f n z0 = true ->
    forall z : Z, z0 <= z < z0 + Z.of_nat n -> f z = true.
Proof.
  induction n as [|n IH]; intros z0 Hall z Hz; [lia|].
  cbn [Terms.all_from] in Hall. apply andb_true_iff in Hall as [Hhere Hrest].
  destruct (Z.eq_dec z z0) as [->|Hne]; [exact Hhere|].
  apply (IH (z0 + 1) Hrest z). lia.
Qed.

Lemma digits_within_spec (w : nat) (bound : Z) :
  Terms.digits_within w bound = true ->
  forall z : Z, 0 <= z < bound -> (String.length (fmt_d z) <= w)%nat.
Proof.
  unfold Terms.digits_within. intros Hall z Hz.
  apply Nat.leb_le.
  apply (@all_from_spec _ _ 0 Hall z). lia.
Qed.

Lemma digits_of_word : Terms.digits_within 5 65536 = true.
Proof. vm_compute. reflexivity. Qed.

Lemma digits_of_columns :
  Terms.digits_within 2 100 = true /\ Terms.digits_within 3 1000 = true
  /\ Terms.digits_within 4 10000 = true.
Proof. repeat split; vm_compute; reflexivity. Qed.

Lemma log_level_length (enLevel : LOG_LEVEL) :
  String.length (_log_level enLevel) = 3%nat.
Proof.
  unfold _log_level.
  repeat match goal with
         | |- context [if ?b then _ else _] => destruct b
         end; reflexivity.
Qed.

Lemma word_field_length (w : nat) (z : Z) :
  (w <= 5)%nat -> 0 <= z <= 65535 -> (String.length (fmt_0d w z) <= 5)%nat.
Proof.
  intros Hw Hz. rewrite fmt_0d_length by lia.
  pose proof (@digits_within_spec 5 65536 digits_of_word z). lia.
Qed.

(** X7: For a time whose fields are 16-bit words, the line [log_write] composes
    is never cut by its buffer: the record handed to [fputs] is the whole
    line, with the message (its first 255 characters) and the closing
    carriage return and line feed. *)
Theorem write_record_is_whole {P : Platform} (t : SYSTEMTIME)
    (enLevel : LOG_LEVEL) (fmt : string) (arg : va_list) :
  Terms.words t ->
  let message := snprintf MAX_LOG_TEXT (vformat fmt arg) in
  record_of (Write enLevel (Some fmt) arg) t = write_line t enLevel message
  /\ (String.length message <= 255)%nat
  /\ exists body : string,
       record_of (Write enLevel (Some fmt) arg) t = body ++ message ++ Terms.CRLF.
Proof.
  intros (Hy & Hmo & Hd & Hh & Hmi & Hs & Hms). cbv zeta.
  assert (Hmsg : (String.length (snprintf MAX_LOG_TEXT (vformat fmt arg)) <= 255)%nat).
  { unfold snprintf, MAX_LOG_TEXT.
    pose proof (proj1 (substring_length (vformat fmt arg) (Z.to_nat (256 - 1)))). lia. }
  assert (Hwhole : record_of (Write enLevel (Some fmt) arg) t =
                   write_line t enLevel (snprintf MAX_LOG_TEXT (vformat fmt arg))).
  { unfold record_of. apply snprintf_fits.
    unfold write_line. rewrite !length_append, log_level_length.
    pose proof (@word_field_length 4 (wYear t)).
    pose proof (@word_field_length 2 (wMonth t)).
    pose proof (@word_field_length 2 (wDay t)).
    pose proof (@word_field_length 2 (wHour t)).
    pose proof (@word_field_length 2 (wMinute t)).
    pose proof (@word_field_length 2 (wSecond t)).
    pose proof (@word_field_length 3 (wMilliseconds t)).
    unfold MAX_LOG_TEXT in *. simpl String.length. lia. }
  split; [exact Hwhole|]. split; [exact Hmsg|].
  rewrite Hwhole. unfold write_line, Terms.CRLF.
  rewrite <- !append_assoc. rewrite append_assoc.
  eexists. reflexivity.
Qed.

Lemma write_record_is_whole_witness :
  Terms.words Sim.noon
  /\ @record_of Sim.platform Scenario.note Sim.noon =
     write_line Sim.noon INF "rotated now"
  /\ write_line Sim.noon INF "rotated now" =
     "2024/02/29, 12:00:05.007, INF, rotated now" ++ Terms.CRLF.
Proof.
  assert (Hw : Terms.words Sim.noon) by (vm_compute; repeat split; discriminate).
  split; [exact Hw|].
  split; [|vm_compute; reflexivity].
  exact (proj1 (@write_record_is_whole Sim.platform Sim.noon INF "rotated %s"
                  ["now"] Hw)).
Defined.

(** X8: For a time whose fields have no more digits than their columns (a year
    up to 9999, milliseconds up to 999, two digits for the rest), the line
    of [log_write] has fixed columns: 31 characters of time and level, then
    the message, then two characters of line end. *)
Theorem write_line_fixed_columns (t : SYSTEMTIME) (enLevel : LOG_LEVEL)
    (szBuff0 : string) :
  Terms.in_columns t ->
  String.length (write_line t enLevel szBuff0) = (31 + String.length szBuff0 + 2)%nat.
Proof.
  intros (Hy & Hmo & Hd & Hh & Hmi & Hs & Hms).
  destruct digits_of_columns as (H2 & H3 & H4).
  unfold write_line. rewrite !length_append, log_level_length.
  rewrite !fmt_0d_length by lia.
  pose proof (@digits_within_spec 4 10000 H4 (wYear t)).
  pose proof (@digits_within_spec 2 100 H2 (wMonth t)).
  pose proof (@digits_within_spec 2 100 H2 (wDay t)).
  pose proof (@digits_within_spec 2 100 H2 (wHour t)).
  pose proof (@digits_within_spec 2 100 H2 (wMinute t)).
  pose proof (@digits_within_spec 2 100 H2 (wSecond t)).
  pose proof (@digits_within_spec 3 1000 H3 (wMilliseconds t)).
  simpl String.length. lia.
Qed.

Lemma write_line_fixed_columns_witness :
  Terms.in_columns Sim.noon
  /\ String.length (write_line Sim.noon WAR "disk almost full") = (31 + 16 + 2)%nat.
Proof.
  assert (Hc : Terms.in_columns Sim.noon) by (vm_compute; repeat split; discriminate).
  split; [exact Hc|].
  exact (write_line_fixed_columns WAR "disk almost full" Hc).
Defined.

(** ** The base name of [log_debug] *)

(** X9: [_get_fname_from_path] answers the text (NULL) when the path or the
    buffer is null.  Otherwise, for the buffer of [log_debug], it gives base
    name and extension of the path as a channel started on the same path
    holds them, whenever the two together are shorter than the buffer. *)
Theorem basename_matches_decomposition {P : Platform} (l0 : LOG_INFO)
    (path buf : string) (nSize : Z) :
  _get_fname_from_path None (Some buf) nSize = "(NULL)"
  /\ _get_fname_from_path (Some path) None nSize = "(NULL)"
  /\ exists l : LOG_INFO,
       log_start (Some l0) (Some path) = (0, Some l)
       /\ (Z.of_nat (String.length (szFname l ++ szFext l)) < MAX_PATH ->
           _get_fname_from_path (Some path) (Some buf) MAX_PATH =
           szFname l ++ szFext l).
Proof.
  split; [reflexivity|]. split; [reflexivity|].
  rewrite log_start_some. unfold _get_fname_from_path.
  destruct (_splitpath path) as [[[tmpDrive tmpDir] tmpFname] tmpFext].
  eexists. split; [reflexivity|]. cbn [szFname szFext].
  intros Hshort. rewrite length_append in Hshort.
  unfold snprintf, MAX_PATH in *.
  rewrite (@substring_short tmpFname (Z.to_nat (260 + 1 - 1))) in * by lia.
  rewrite (@substring_short tmpFext (Z.to_nat (260 + 1 - 1))) in * by lia.
  apply substring_all. rewrite length_append. lia.
Qed.

Lemma basename_matches_decomposition_witness :
  Z.of_nat (String.length (szFname Scenario.app_info ++ szFext Scenario.app_info))
    < MAX_PATH
  /\ @_get_fname_from_path Sim.platform (Some "C:/logs/app.log") (Some "") MAX_PATH =
     "app.log".
Proof.
  destruct (@basename_matches_decomposition Sim.platform Sim.zeroed
              "C:/logs/app.log" "" 0) as (_ & _ & l & Hstart & Hname).
  assert (Hrun : @log_start Sim.platform (Some Sim.zeroed) (Some "C:/logs/app.log") =
                 (0, Some Scenario.app_info)) by (vm_compute; reflexivity).
  rewrite Hrun in Hstart. injection Hstart as <-.
  assert (Hshort : Z.of_nat (String.length (szFname Scenario.app_info
                                            ++ szFext Scenario.app_info)) < MAX_PATH)
    by (vm_compute; reflexivity).
  exact (conj Hshort (Hname Hshort)).
Defined.

(** ** [_copy_filepath] on its own *)

(** X10: [_copy_filepath] returns -1 and leaves the channel alone when a pointer
    is null.  Otherwise it stores the decomposition of the path and keeps
    lock, flag, threshold and backup count; it returns 0 with the name of
    index 0 as live path when the backup count is not negative, and -1 with
    an empty live path when it is. *)
Theorem copy_filepath_result {P : Platform} :
  (forall pstLog : option LOG_INFO, _copy_filepath pstLog None = (-1, pstLog))
  /\ (forall szPath : option string, _copy_filepath None szPath = (-1, None))
  /\ forall (l : LOG_INFO) (path : string),
       exists l' : LOG_INFO,
         _copy_filepath (Some l) (Some path) =
           (if 0 <=? nLogBackup l then 0 else -1, Some l')
         /\ (szDir l', szFname l', szFext l') = decompose path
         /\ szLogPath l' = (if 0 <=? nLogBackup l then backupName l' 0 else "")
         /\ stCS l' = stCS l /\ bUsed l' = bUsed l
         /\ nFileSize l' = nFileSize l /\ nLogBackup l' = nLogBackup l.
Proof.
  split; [intros [l|]; reflexivity|].
  split; [intros [p|]; reflexivity|].
  intros [cs p u fs nb d f e] path.
  unfold _copy_filepath, decompose, backupName, _get_backupname.
  destruct (_splitpath path) as [[[tmpDrive tmpDir] tmpFname] tmpFext].
  cbn [nLogBackup set_szDir set_szFname set_szFext set_szLogPath szLogPath
       stCS bUsed nFileSize szDir szFname szFext].
  change (0 <? 0) with false. cbn [orb].
  rewrite Z.leb_antisym.
  cbv beta iota delta [set_szDir set_szFname set_szFext set_szLogPath nLogBackup
                       szLogPath stCS bUsed nFileSize szDir szFname szFext].
  destruct (nb <? 0) eqn:Hneg; cbn [negb];
    (eexists; split; [reflexivity|]);
    cbv beta iota delta [nLogBackup szLogPath stCS bUsed nFileSize szDir szFname
                         szFext];
    rewrite ?Hneg; repeat split.
Qed.

(** ** The rotation check reports nothing *)

(** X11: Whatever the platform does (no file, a failing close, deletes and
    renames that fail), the rotation check returns 0 for a channel that is
    not null; for a null channel it returns -1 and touches nothing. *)
Theorem rotation_check_never_fails {P : Platform} (w : World) :
  _backup_file None w = (-1, w)
  /\ forall l : LOG_INFO, fst (_backup_file (Some l) w) = 0.
Proof.
  split; [reflexivity|]. intros l. apply backup_file_code.
Qed.

(** ** The in-memory file system *)

Module SimFacts.

Import Sim.

Lemma lookup_remove_same (p : string) (d : list (string * node)) :
  lookup p (remove p d) = None.
Proof.
  induction d as [|[q n] d IH]; simpl; [reflexivity|].
  destruct (String.eqb p q) eqn:E; [exact IH|].
  simpl. rewrite E. exact IH.
Qed.

Lemma lookup_remove_other (p q : string) (d : list (string * node)) :
  p <> q -> lookup q (remove p d) = lookup q d.
Proof.
  intros Hne. induction d as [|[r n] d IH]; simpl; [reflexivity|].
  destruct (String.eqb p r) eqn:Epr.
  - apply String.eqb_eq in Epr. subst r.
    replace (String.eqb q p) with false
      by (symmetry; apply String.eqb_neq; congruence).
    exact IH.
  - simpl. rewrite IH. reflexivity.
Qed.

Lemma lookup_store_same (p : string) (n : node) (d : list (string * node)) :
  lookup p (store p n d) = Some n.
Proof. unfold store. simpl. rewrite String.eqb_refl. reflexivity. Qed.

Lemma lookup_store_other (p q : string) (n : node) (d : list (string * node)) :
  p <> q -> lookup q (store p n d) = lookup q d.
Proof.
  intros Hne. unfold store. simpl.
  replace (String.eqb q p) with false
    by (symmetry; apply String.eqb_neq; congruence).
  apply lookup_remove_other. exact Hne.
Qed.

Lemma size_of_nonneg (pieces : list string) : 0 <= size_of pieces.
Proof. induction pieces as [|s ps IH]; simpl; lia. Qed.

(** *** Directories are left alone *)

Lemma delete_keeps_directory (p q : string) (w : world) :
  Terms.is_directory (disk w) q ->
  Terms.is_directory (disk (snd (sim_delete p w))) q.
Proof.
  unfold Terms.is_directory, sim_delete. intros Hq.
  destruct (lookup p (disk w)) as [[ps [|]|]|] eqn:Hp; cbn [snd disk with_disk with_err]; try exact Hq.
  rewrite lookup_remove_other; [exact Hq|]. intros E. congruence.
Qed.

Lemma move_keeps_directory (a b q : string) (w : world) :
  sim_exists a w && negb (sim_is_dir a w) = true ->
  Terms.is_directory (disk w) q ->
  Terms.is_directory (disk (snd (sim_move a b w))) q.
Proof.
  unfold Terms.is_directory, sim_move, sim_exists, sim_is_dir. intros Hreg Hq.
  destruct (lookup a (disk w)) as [[ps ro|]|] eqn:Ha; simpl in Hreg;
    try discriminate Hreg; try exact Hq.
  destruct (lookup b (disk w)) as [nb|] eqn:Hb; cbn [snd disk with_disk with_err]; [exact Hq|].
  rewrite lookup_store_other by (intros E; congruence).
  rewrite lookup_remove_other by (intros E; congruence).
  exact Hq.
Qed.

Lemma fopen_keeps_directory (path mode q : string) (w : world) :
  Terms.is_directory (disk w) q ->
  Terms.is_directory (disk (snd (sim_fopen path mode w))) q.
Proof.
  unfold Terms.is_directory, sim_fopen. intros Hq.
  destruct (String.eqb mode "rb").
  - destruct (lookup path (disk w)) as [[ps ro|]|]; exact Hq.
  - destruct (String.eqb mode "ab+"); [|exact Hq].
    destruct (lookup path (disk w)) as [[ps [|]|]|] eqn:Hp; cbn [snd disk with_disk with_err]; try exact Hq.
    rewrite lookup_store_other by (intros E; congruence). exact Hq.
Qed.

Lemma fputs_keeps_directory (s : string) (fp : stream) (q : string) (w : world) :
  Terms.is_directory (disk w) q ->
  Terms.is_directory (disk (snd (sim_fputs s fp w))) q.
Proof.
  unfold Terms.is_directory, sim_fputs. intros Hq.
  destruct (disk_full w); [exact Hq|].
  destruct (snd fp); [|exact Hq].
  destruct (lookup (fst fp) (disk w)) as [[ps ro|]|] eqn:Hp; cbn [snd disk with_disk with_err]; try exact Hq.
  rewrite lookup_store_other by (intros E; congruence). exact Hq.
Qed.

Lemma fclose_keeps_disk (fp : stream) (w : world) :
  disk (snd (sim_fclose fp w)) = disk w.
Proof. unfold sim_fclose. destruct (close_fault w); reflexivity. Qed.

Lemma get_filesize_keeps_disk (szPath : option string) (w : world) :
  disk (snd (@_get_filesize platform szPath w)) = disk w.
Proof.
  destruct szPath as [path|]; [|reflexivity].
  unfold _get_filesize, bind, ret, query. cbn [fopen fclose platform].
  unfold sim_fopen. cbn [String.eqb Ascii.eqb Bool.eqb].
  destruct (lookup path (disk w)) as [[ps ro|]|]; try reflexivity.
  unfold sim_fclose. destruct (close_fault w); reflexivity.
Qed.

Lemma shift_loop_keeps_directory (pstLog : option LOG_INFO) (q : string)
    (fuel : nat) :
  forall (nBkNo : Z) (szBefore szAfter : string) (w : world),
    Terms.is_directory (disk w) q ->
    Terms.is_directory
      (disk (snd (@shift_loop platform fuel pstLog nBkNo szBefore szAfter w))) q.
Proof.
  induction fuel as [|fuel IH]; intros nBkNo szBefore szAfter w Hq; [exact Hq|].
  cbn [shift_loop]. destruct (0 <=? nBkNo); [|exact Hq].
  unfold bind at 1. rewrite regular_file_value.
  cbn [PathFileExists PathIsDirectory platform].
  match goal with
  | |- context [sim_exists ?a w && negb (sim_is_dir ?a w)] =>
      destruct (sim_exists a w && negb (sim_is_dir a w)) eqn:Hreg
  end.
  - unfold bind. cbn [MoveFile platform].
    match goal with
    | |- context [sim_move ?a ?b w] =>
        pose proof (@move_keeps_directory a b q w Hreg Hq) as Hmoved;
        destruct (sim_move a b w) as [moved w1]
    end.
    apply IH. exact Hmoved.
  - apply IH. exact Hq.
Qed.

Lemma backup_file_keeps_directory (pstLog : option LOG_INFO) (q : string)
    (w : world) :
  Terms.is_directory (disk w) q ->
  Terms.is_directory (disk (snd (@_backup_file platform pstLog w))) q.
Proof.
  intros Hq. destruct pstLog as [l|]; [|exact Hq].
  unfold _backup_file. unfold bind at 1.
  pose proof (@get_filesize_keeps_disk (Some (szLogPath l)) w) as Hsame.
  destruct (@_get_filesize platform (Some (szLogPath l)) w) as [fsize w1].
  cbn [snd] in Hsame.
  assert (Hq1 : Terms.is_directory (disk w1) q)
    by (unfold Terms.is_directory; rewrite Hsame; exact Hq).
  destruct (fsize <? 0); [exact Hq1|].
  unfold bind, query, ret.
  destruct (nFileSize l <=? fsize); [|exact Hq1].
  rewrite regular_file_value.
  destruct (PathFileExists _ w1 && negb (PathIsDirectory _ w1)).
  - cbn [DeleteFile platform].
    match goal with
    | |- context [sim_delete ?a w1] =>
        pose proof (@delete_keeps_directory a q w1 Hq1) as Hdel;
        destruct (sim_delete a w1) as [deleted w2]
    end.
    cbn [snd] in Hdel.
    match goal with
    | |- context [shift_loop ?f ?p ?n ?b ?a w2] =>
        pose proof (@shift_loop_keeps_directory p q f n b a w2 Hdel) as Hloop;
        destruct (@shift_loop platform f p n b a w2) as [[] w3]
    end.
    exact Hloop.
  - match goal with
    | |- context [shift_loop ?f ?p ?n ?b ?a w1] =>
        pose proof (@shift_loop_keeps_directory p q f n b a w1 Hq1) as Hloop;
        destruct (@shift_loop platform f p n b a w1) as [[] w3]
    end.
    exact Hloop.
Qed.

Lemma report_errno_keeps_disk (w : world) :
  disk (snd (@report_errno platform w)) = disk w.
Proof.
  unfold report_errno, bind, query, update, ret. cbn [errno perror platform].
  destruct (err w =? 0); reflexivity.
Qed.

Lemma perform_keeps_directory (c : call) (pstLog : option LOG_INFO) (q : string)
    (w : world) :
  Terms.is_directory (disk w) q ->
  Terms.is_directory (disk (snd (@perform platform c pstLog w))) q.
Proof.
  intros Hq. destruct (@accepted platform c pstLog) eqn:Hacc.
  - destruct pstLog as [l|]; [|discriminate Hacc].
    rewrite perform_accepted by exact Hacc. cbv zeta.
    cbn [fopen fputs fclose set_errno GetLocalTime platform].
    pose proof (@backup_file_keeps_directory (Some (_log_lock l)) q w Hq) as H1.
    set (w1 := with_err 0 (snd (@_backup_file platform (Some (_log_lock l)) w))).
    assert (Hq1 : Terms.is_directory (disk w1) q) by exact H1.
    pose proof (@fopen_keeps_directory (szLogPath l) "ab+" q w1 Hq1) as H2.
    destruct (sim_fopen (szLogPath l) "ab+" w1) as [[fp|] w2]; cbn [snd] in H2.
    + match goal with
      | |- context [sim_fputs ?s fp w2] =>
          pose proof (@fputs_keeps_directory s fp q w2 H2) as H3
      end.
      match goal with
      | |- context [let (_, _) := ?closing in _] =>
          destruct closing as [rc w4] eqn:Hclose
      end.
      apply (f_equal (fun r => disk (snd r))) in Hclose. cbn [snd] in Hclose.
      rewrite fclose_keeps_disk in Hclose.
      unfold Terms.is_directory in *.
      destruct (rc =? 0); cbn [snd]; rewrite ?report_errno_keeps_disk, <- Hclose;
        exact H3.
    + cbn [snd]. unfold Terms.is_directory in *.
      rewrite report_errno_keeps_disk. exact H2.
  - rewrite perform_rejected by exact Hacc. exact Hq.
Qed.

(** X12: On the in-memory file system, no sequence of writes, on any channel
    and with any faults, deletes, renames or replaces a directory: a name
    that is a directory before is that directory afterwards. *)
Theorem directories_survive_writes (cs : list call) :
  forall (pstLog : option LOG_INFO) (q : string) (w : world),
    Terms.is_directory (disk w) q ->
    Terms.is_directory (disk (snd (@perform_all platform cs pstLog w))) q.
Proof.
  induction cs as [|c cs IH]; intros pstLog q w Hq; [exact Hq|].
  cbn [perform_all]. unfold bind.
  pose proof (@perform_keeps_directory c pstLog q w Hq) as Hstep.
  destruct (@perform platform c pstLog w) as [r w1].
  apply IH. exact Hstep.
Qed.

Lemma directories_survive_writes_witness :
  Terms.is_directory (disk Scenario.stuck) Scenario.gen2
  /\ Terms.is_directory
       (disk (snd (@perform_all platform
                     [Scenario.note; Scenario.probe; Scenario.lost]
                     (Some Scenario.app_info) Scenario.stuck)))
       Scenario.gen2.
Proof.
  assert (Hdir : Terms.is_directory (disk Scenario.stuck) Scenario.gen2)
    by reflexivity.
  exact (conj Hdir
           (@directories_survive_writes
              [Scenario.note; Scenario.probe; Scenario.lost]
              (Some Scenario.app_info) Scenario.gen2 Scenario.stuck Hdir)).
Defined.

(** *** Rotation *)

Lemma fitting_names_differ (l : LOG_INFO) (i j : Z) :
  (forall k : Z, 0 <= k <= nLogBackup l ->
     Z.of_nat (String.length (backup_text l k)) <= MAX_PATH) ->
  0 <= i <= nLogBackup l -> 0 <= j <= nLogBackup l ->
  backupName l i = backupName l j -> i = j.
Proof.
  intros Hfit Hi Hj. unfold backupName.
  rewrite !get_backupname_in_range by assumption. cbn [buffer_after snd].
  rewrite !snprintf_fits
    by (pose proof (Hfit i Hi); pose proof (Hfit j Hj); unfold MAX_PATH in *; lia).
  unfold backup_text. intros H.
  apply append_cancel_l, append_cancel_l in H.
  simpl in H. injection H as H.
  apply append_cancel_r in H. apply fmt_d_inj, H.
Qed.

Lemma movable_cases (d : list (string * node)) (p : string) :
  Terms.movable d p = true ->
  lookup p d = None \/ exists ps, lookup p d = Some (File ps false).
Proof.
  unfold Terms.movable.
  destruct (lookup p d) as [[ps [|]|]|]; intros H; try discriminate H.
  - right. exists ps. reflexivity.
  - left. reflexivity.
Qed.

Lemma delete_keeps_device (p : string) (w : world) :
  Terms.same_device w (snd (sim_delete p w)).
Proof.
  unfold sim_delete.
  destruct (lookup p (disk w)) as [[ps [|]|]|]; repeat split.
Qed.

Lemma move_keeps_device (a b : string) (w : world) :
  Terms.same_device w (snd (sim_move a b w)).
Proof.
  unfold sim_move.
  destruct (lookup a (disk w)); [destruct (lookup b (disk w))|]; repeat split.
Qed.

Lemma same_device_trans (w1 w2 w3 : world) :
  Terms.same_device w1 w2 -> Terms.same_device w2 w3 -> Terms.same_device w1 w3.
Proof.
  unfold Terms.same_device. intros (A & B & C) (D & E & F).
  repeat split; congruence.
Qed.

(** Step b on the in-memory file system. *)
Lemma shift_down_on_disk (l : LOG_INFO) (d0 : list (string * node)) :
  (forall i j : Z, 0 <= i <= nLogBackup l -> 0 <= j <= nLogBackup l ->
     backupName l i = backupName l j -> i = j) ->
  (forall i : Z, 0 <= i <= nLogBackup l ->
     Terms.movable d0 (backupName l i) = true) ->
  forall (k : nat) (w : world),
    Z.of_nat k <= nLogBackup l ->
    Terms.shifted l d0 (disk w) (Z.of_nat k) ->
    Terms.shifted l d0 (disk (snd (@shift_down platform l k w))) 0
    /\ Terms.same_device w (snd (@shift_down platform l k w)).
Proof.
  intros Hinj Hmov k. induction k as [|k IH]; intros w Hk Hinv.
  - split; [exact Hinv|repeat split].
  - cbn [shift_down]. unfold bind.
    assert (Hstep : Terms.shifted l d0
                      (disk (snd (@shift_one platform l (Z.of_nat k) w)))
                      (Z.of_nat k)
                    /\ Terms.same_device w
                         (snd (@shift_one platform l (Z.of_nat k) w))).
    { destruct Hinv as (Hfree & Hlow & Hhigh & Hrest).
      replace (Z.of_nat (S k)) with (Z.of_nat k + 1) in * by lia.
      assert (Hhere : lookup (backupName l (Z.of_nat k)) (disk w) =
                      lookup (backupName l (Z.of_nat k)) d0) by (apply Hlow; lia).
      unfold shift_one, bind. rewrite regular_file_value.
      cbn [PathFileExists PathIsDirectory MoveFile platform].
      unfold sim_exists, sim_is_dir. rewrite Hhere.
      destruct (@movable_cases d0 (backupName l (Z.of_nat k)))
        as [Hnone|[ps Hfile]]; [apply Hmov; lia| |].
      - rewrite Hnone. cbn [andb]. unfold ret. cbn [snd].
        split; [|repeat split].
        repeat split.
        + rewrite Hhere. exact Hnone.
        + intros j Hj. apply Hlow. lia.
        + intros j Hj. destruct (Z.eq_dec j (Z.of_nat k)) as [->|Hne].
          * rewrite Hfree. symmetry. exact Hnone.
          * apply Hhigh. lia.
        + exact Hrest.
      - rewrite Hfile. cbn [andb negb]. cbv beta.
        unfold sim_move. rewrite Hhere, Hfile, Hfree.
        unfold ret. cbn [snd disk with_disk].
        assert (Hab : backupName l (Z.of_nat k) <> backupName l (Z.of_nat k + 1)).
        { intros E. apply Hinj in E; lia. }
        split; [|repeat split].
        repeat split.
        + rewrite lookup_store_other by congruence.
          apply lookup_remove_same.
        + intros j Hj.
          rewrite lookup_store_other by (intros E; apply Hinj in E; lia).
          rewrite lookup_remove_other by (intros E; apply Hinj in E; lia).
          apply Hlow. lia.
        + intros j Hj. destruct (Z.eq_dec j (Z.of_nat k)) as [->|Hne].
          * rewrite lookup_store_same. symmetry. exact Hfile.
          * rewrite lookup_store_other by (intros E; apply Hinj in E; lia).
            rewrite lookup_remove_other by (intros E; apply Hinj in E; lia).
            apply Hhigh. lia.
        + intros p Hp.
          rewrite lookup_store_other by (intros E; apply (Hp (Z.of_nat k + 1)); [lia|congruence]).
          rewrite lookup_remove_other by (intros E; apply (Hp (Z.of_nat k)); [lia|congruence]).
          apply Hrest. exact Hp. }
    destruct (@shift_one platform l (Z.of_nat k) w) as [[] w1].
    cbn [snd] in Hstep. destruct Hstep as [Hinv1 Hdev1].
    destruct (IH w1 ltac:(lia) Hinv1) as [Hfinal Hdev2].
    split; [exact Hfinal|].
    exact (same_device_trans Hdev1 Hdev2).
Qed.

(** The whole cascade on the in-memory file system. *)
Lemma cascade_on_disk (l : LOG_INFO) (w : world) :
  0 <= nLogBackup l ->
  (forall k : Z, 0 <= k <= nLogBackup l ->
     Z.of_nat (String.length (backup_text l k)) <= MAX_PATH) ->
  (forall i : Z, 0 <= i <= nLogBackup l ->
     Terms.movable (disk w) (backupName l i) = true) ->
  Terms.shifted l (disk w) (disk (snd (@rotation_cascade platform l w))) 0
  /\ Terms.same_device w (snd (@rotation_cascade platform l w)).
Proof.
  intros Hn Hfit Hmov.
  assert (Hinj : forall i j : Z, 0 <= i <= nLogBackup l -> 0 <= j <= nLogBackup l ->
                   backupName l i = backupName l j -> i = j)
    by (intros i j; apply fitting_names_differ; exact Hfit).
  unfold rotation_cascade. unfold bind.
  assert (Hdel : Terms.shifted l (disk w)
                   (disk (snd (@delete_oldest platform l w))) (nLogBackup l)
                 /\ Terms.same_device w (snd (@delete_oldest platform l w))).
  { unfold delete_oldest, bind. rewrite regular_file_value.
    cbn [PathFileExists PathIsDirectory DeleteFile platform].
    unfold sim_exists, sim_is_dir.
    destruct (@movable_cases (disk w) (backupName l (nLogBackup l)))
      as [Hnone|[ps Hfile]]; [apply Hmov; lia| |].
    - rewrite Hnone. cbn [andb]. unfold ret. cbn [snd].
      split; [|repeat split].
      repeat split; [exact Hnone|lia].
    - rewrite Hfile. cbn [andb negb]. cbv beta.
      unfold sim_delete. rewrite Hfile.
      unfold ret. cbn [snd disk with_disk].
      split; [|repeat split].
      repeat split.
      + apply lookup_remove_same.
      + intros j Hj. apply lookup_remove_other.
        intros E; apply Hinj in E; lia.
      + lia.
      + intros p Hp. apply lookup_remove_other.
        intros E; apply (Hp (nLogBackup l)); [lia|congruence]. }
  destruct (@delete_oldest platform l w) as [[] w1].
  cbn [snd] in Hdel. destruct Hdel as [Hinv Hdev].
  assert (Hinv' : Terms.shifted l (disk w) (disk w1)
                    (Z.of_nat (Z.to_nat (nLogBackup l))))
    by (rewrite Z2Nat.id by exact Hn; exact Hinv).
  destruct (@shift_down_on_disk l (disk w) Hinj Hmov
              (Z.to_nat (nLogBackup l)) w1 ltac:(lia) Hinv') as [Hfinal Hdev2].
  split; [exact Hfinal|].
  exact (same_device_trans Hdev Hdev2).
Qed.

(** *** The size query and the append *)

Lemma get_filesize_of_file (path : string) (ps : list string) (ro : bool)
    (w : world) :
  lookup path (disk w) = Some (File ps ro) ->
  close_fault w = false ->
  @_get_filesize platform (Some path) w = (Z.shiftr (size_of ps) 10, w).
Proof.
  intros Hfile Hclose.
  unfold _get_filesize, bind, ret, query.
  cbn [fopen fclose _filelength platform].
  unfold sim_fopen. cbn [String.eqb Ascii.eqb Bool.eqb]. rewrite Hfile.
  unfold sim_fclose, sim_filelength. cbn [fst]. rewrite Hclose, Hfile.
  reflexivity.
Qed.

Lemma get_filesize_of_nothing (path : string) (w : world) :
  lookup path (disk w) = None ->
  @_get_filesize platform (Some path) w = (-1, with_err ENOENT w).
Proof.
  intros Hnone.
  unfold _get_filesize, bind, ret, query.
  cbn [fopen fclose _filelength platform].
  unfold sim_fopen. cbn [String.eqb Ascii.eqb Bool.eqb]. rewrite Hnone.
  reflexivity.
Qed.

(** What an accepted write does after the rotation check, when the device
    works and the live name is free or holds a writable file. *)
Lemma append_on_disk (c : call) (l : LOG_INFO) (w : world) :
  @accepted platform c (Some l) = true ->
  let wb := snd (@_backup_file platform (Some (_log_lock l)) w) in
  disk_full wb = false -> close_fault wb = false ->
  Terms.movable (disk wb) (szLogPath l) = true ->
  let r := @perform platform c (Some l) w in
  fst (fst r) = 0
  /\ lookup (szLogPath l) (disk (snd r)) =
       Some (File (Terms.pieces_at (disk wb) (szLogPath l)
                   ++ [@record_of platform c (clock wb)]) false)
  /\ forall p : string, p <> szLogPath l ->
       lookup p (disk (snd r)) = lookup p (disk wb).
Proof.
  intros Hacc wb Hfull Hclose Hmov. cbv zeta.
  rewrite perform_accepted by exact Hacc. cbv zeta. fold wb.
  cbn [fopen fputs fclose set_errno GetLocalTime platform].
  unfold sim_fopen. cbn [String.eqb Ascii.eqb Bool.eqb].
  cbn [disk with_err]. unfold Terms.pieces_at.
  destruct (@movable_cases (disk wb) (szLogPath l) Hmov) as [Hnone|[ps Hfile]].
  - rewrite Hnone.
    unfold sim_fputs. cbn [disk_full with_disk with_err snd fst disk clock].
    rewrite Hfull, lookup_store_same.
    unfold sim_fclose. cbn [close_fault with_disk with_err snd fst disk].
    rewrite Hclose. cbn [Z.eqb fst snd disk with_disk].
    split; [reflexivity|]. split.
    + rewrite lookup_store_same. reflexivity.
    + intros p Hp. rewrite !lookup_store_other by congruence. reflexivity.
  - rewrite Hfile.
    unfold sim_fputs. cbn [disk_full with_disk with_err snd fst disk clock].
    rewrite Hfull, Hfile.
    unfold sim_fclose. cbn [close_fault with_disk with_err snd fst disk].
    rewrite Hclose. cbn [Z.eqb fst snd disk with_disk].
    split; [reflexivity|]. split.
    + rewrite lookup_store_same. reflexivity.
    + intros p Hp. rewrite lookup_store_other by congruence. reflexivity.
Qed.

(** X13: On the in-memory file system with a working device: an accepted write
    to a channel whose live name is free, or holds a writable file below
    the threshold, returns 0, appends exactly its record to the live file
    (creating it when it is missing), and leaves every other name as it
    was.  No backup appears. *)
Theorem plain_write_appends (c : call) (l : LOG_INFO) (w : world) :
  @accepted platform c (Some l) = true ->
  disk_full w = false -> close_fault w = false ->
  Terms.movable (disk w) (szLogPath l) = true ->
  lookup (szLogPath l) (disk w) = None
  \/ Z.shiftr (size_of (Terms.pieces_at (disk w) (szLogPath l))) 10 < nFileSize l ->
  let r := @perform platform c (Some l) w in
  fst (fst r) = 0
  /\ lookup (szLogPath l) (disk (snd r)) =
       Some (File (Terms.pieces_at (disk w) (szLogPath l)
                   ++ [@record_of platform c (clock w)]) false)
  /\ forall p : string, p <> szLogPath l ->
       lookup p (disk (snd r)) = lookup p (disk w).
Proof.
  intros Hacc Hfull Hclose Hmov Hbelow.
  assert (Hwb : snd (@_backup_file platform (Some (_log_lock l)) w) = w
                \/ snd (@_backup_file platform (Some (_log_lock l)) w) =
                   with_err ENOENT w).
  { unfold _log_lock. rewrite backup_file_ignores_lock.
    destruct (@movable_cases (disk w) (szLogPath l) Hmov) as [Hnone|[ps Hfile]].
    - right.
      rewrite (@backup_file_idle platform l w _ _
                 (@get_filesize_of_nothing (szLogPath l) w Hnone)) by (left; lia).
      reflexivity.
    - left.
      assert (Hsmall : Z.shiftr (size_of ps) 10 < nFileSize l).
      { destruct Hbelow as [Hnone|Hsmall]; [congruence|].
        unfold Terms.pieces_at in Hsmall. rewrite Hfile in Hsmall. exact Hsmall. }
      rewrite (@backup_file_idle platform l w _ _
                 (@get_filesize_of_file (szLogPath l) ps false w Hfile Hclose))
        by (right; exact Hsmall).
      reflexivity. }
  pose proof (@append_on_disk c l w Hacc) as Happend. cbv zeta in Happend.
  destruct Hwb as [Hwb|Hwb]; rewrite Hwb in Happend;
    apply Happend; assumption.
Qed.

Lemma plain_write_appends_witness :
  @accepted platform Scenario.note (Some Scenario.app_info) = true
  /\ lookup Scenario.live (disk Sim.empty_world) = None
  /\ (let r := @perform platform Scenario.note (Some Scenario.app_info)
                 Sim.empty_world in
      fst (fst r) = 0
      /\ lookup Scenario.live (disk (snd r)) =
           Some (File [@record_of platform Scenario.note Sim.noon] false)).
Proof.
  assert (Hacc : @accepted platform Scenario.note (Some Scenario.app_info) = true)
    by reflexivity.
  assert (Hnone : lookup (szLogPath Scenario.app_info) (disk Sim.empty_world) = None)
    by reflexivity.
  destruct (@plain_write_appends Scenario.note Scenario.app_info Sim.empty_world
              Hacc eq_refl eq_refl eq_refl (or_introl Hnone))
    as (Hcode & Hlive & _).
  exact (conj Hacc (conj Hnone (conj Hcode Hlive))).
Defined.

(** X14: On the in-memory file system with a working device: when the live
    file has reached the threshold, the names of all generations fit the
    path buffer, and each of them is free or holds a writable file, the
    rotation check frees the live name and moves every generation up by
    one: generation [j + 1] holds afterwards what generation [j] held
    before, for every [j] below the backup count.  What the oldest
    generation held is gone, and names that are no generation of the
    channel are as before. *)
Theorem rotation_shifts_generations (l : LOG_INFO) (w : world) (ps : list string) :
  0 <= nLogBackup l ->
  szLogPath l = backupName l 0 ->
  (forall k : Z, 0 <= k <= nLogBackup l ->
     Z.of_nat (String.length (backup_text l k)) <= MAX_PATH) ->
  (forall i : Z, 0 <= i <= nLogBackup l ->
     Terms.movable (disk w) (backupName l i) = true) ->
  close_fault w = false ->
  lookup (szLogPath l) (disk w) = Some (File ps false) ->
  nFileSize l <= Z.shiftr (size_of ps) 10 ->
  let d' := disk (snd (@_backup_file platform (Some l) w)) in
  lookup (backupName l 0) d' = None
  /\ (forall j : Z, 0 <= j < nLogBackup l ->
        lookup (backupName l (j + 1)) d' = lookup (backupName l j) (disk w))
  /\ (forall p : string,
        (forall i : Z, 0 <= i <= nLogBackup l -> p <> backupName l i) ->
        lookup p d' = lookup p (disk w)).
Proof.
  intros Hn Hlive Hfit Hmov Hclose Hfile Hfire. cbv zeta.
  rewrite (@backup_file_fires platform l w w _ Hn
             (@get_filesize_of_file (szLogPath l) ps false w Hfile Hclose))
    by (try apply Z.shiftr_nonneg; try apply size_of_nonneg; exact Hfire).
  cbn [snd].
  destruct (@cascade_on_disk l w Hn Hfit Hmov) as [(Hfree & _ & Hup & Hrest) _].
  split; [exact Hfree|]. split; [exact Hup|exact Hrest].
Qed.

Lemma app_names_fit :
  forall k : Z, 0 <= k <= nLogBackup Scenario.app_info ->
    Z.of_nat (String.length (backup_text Scenario.app_info k)) <= MAX_PATH.
Proof.
  intros k Hk. change (nLogBackup Scenario.app_info) with 3 in Hk.
  assert (Hcases : k = 0 \/ k = 1 \/ k = 2 \/ k = 3) by lia.
  destruct Hcases as [->|[->|[->| ->]]]; vm_compute; discriminate.
Qed.

Lemma due_names_movable :
  forall i : Z, 0 <= i <= nLogBackup Scenario.app_info ->
    Terms.movable (disk Scenario.due) (backupName Scenario.app_info i) = true.
Proof.
  intros i Hi. change (nLogBackup Scenario.app_info) with 3 in Hi.
  assert (Hcases : i = 0 \/ i = 1 \/ i = 2 \/ i = 3) by lia.
  destruct Hcases as [->|[->|[->| ->]]]; vm_compute; reflexivity.
Qed.

Lemma rotation_shifts_generations_witness :
  0 <= nLogBackup Scenario.app_info
  /\ szLogPath Scenario.app_info = backupName Scenario.app_info 0
  /\ close_fault Scenario.due = false
  /\ lookup (szLogPath Scenario.app_info) (disk Scenario.due) =
       Some (File Scenario.mebibyte false)
  /\ nFileSize Scenario.app_info <= Z.shiftr (size_of Scenario.mebibyte) 10
  /\ (let d' := disk (snd (@_backup_file platform (Some Scenario.app_info)
                             Scenario.due)) in
      lookup Scenario.live d' = None
      /\ lookup Scenario.gen1 d' = Some (File Scenario.mebibyte false)
      /\ lookup Scenario.gen2 d' = Some (File ["one"] false)
      /\ lookup Scenario.gen3 d' = None).
Proof.
  assert (Hn : 0 <= nLogBackup Scenario.app_info) by (vm_compute; discriminate).
  assert (Hlive : szLogPath Scenario.app_info = backupName Scenario.app_info 0)
    by reflexivity.
  assert (Hclose : close_fault Scenario.due = false) by reflexivity.
  assert (Hfile : lookup (szLogPath Scenario.app_info) (disk Scenario.due) =
                  Some (File Scenario.mebibyte false)) by reflexivity.
  assert (Hfire : nFileSize Scenario.app_info <=
                  Z.shiftr (size_of Scenario.mebibyte) 10)
    by (vm_compute; discriminate).
  destruct (@rotation_shifts_generations Scenario.app_info Scenario.due
              Scenario.mebibyte Hn Hlive app_names_fit due_names_movable
              Hclose Hfile Hfire) as (Hfree & Hup & _).
  refine (conj Hn (conj Hlive (conj Hclose (conj Hfile (conj Hfire
            (conj Hfree (conj _ (conj _ _)))))))).
  - exact (Hup 0 ltac:(vm_compute; split; [discriminate|reflexivity])).
  - exact (Hup 1 ltac:(vm_compute; split; [discriminate|reflexivity])).
  - exact (Hup 2 ltac:(vm_compute; split; [discriminate|reflexivity])).
Defined.

(** X15: On the in-memory file system with a working device, under the same
    conditions: an accepted write that finds the live file at the threshold
    returns 0, leaves a new live file that holds its record and nothing
    else, and has moved every generation up by one; generation 1 holds,
    piece by piece, what the live file held. *)
Theorem rotating_write_starts_new_file (c : call) (l : LOG_INFO) (w : world)
    (ps : list string) :
  @accepted platform c (Some l) = true ->
  0 <= nLogBackup l ->
  szLogPath l = backupName l 0 ->
  (forall k : Z, 0 <= k <= nLogBackup l ->
     Z.of_nat (String.length (backup_text l k)) <= MAX_PATH) ->
  (forall i : Z, 0 <= i <= nLogBackup l ->
     Terms.movable (disk w) (backupName l i) = true) ->
  disk_full w = false -> close_fault w = false ->
  lookup (szLogPath l) (disk w) = Some (File ps false) ->
  nFileSize l <= Z.shiftr (size_of ps) 10 ->
  let r := @perform platform c (Some l) w in
  fst (fst r) = 0
  /\ lookup (backupName l 0) (disk (snd r)) =
       Some (File [@record_of platform c (clock w)] false)
  /\ (forall j : Z, 0 <= j < nLogBackup l ->
        lookup (backupName l (j + 1)) (disk (snd r)) =
        lookup (backupName l j) (disk w))
  /\ (forall p : string,
        (forall i : Z, 0 <= i <= nLogBackup l -> p <> backupName l i) ->
        lookup p (disk (snd r)) = lookup p (disk w)).
Proof.
  intros Hacc Hn Hlive Hfit Hmov Hfull Hclose Hfile Hfire.
  assert (Hwb : snd (@_backup_file platform (Some (_log_lock l)) w) =
                snd (@rotation_cascade platform l w)).
  { unfold _log_lock. rewrite backup_file_ignores_lock.
    rewrite (@backup_file_fires platform l w w _ Hn
               (@get_filesize_of_file (szLogPath l) ps false w Hfile Hclose))
      by (try apply Z.shiftr_nonneg; try apply size_of_nonneg; exact Hfire).
    reflexivity. }
  destruct (@cascade_on_disk l w Hn Hfit Hmov)
    as [(Hfree & _ & Hup & Hrest) (Hclock & Hfull' & Hclose')].
  pose proof (@append_on_disk c l w Hacc) as Happend. cbv zeta in Happend.
  rewrite Hwb in Happend. rewrite Hlive in Happend.
  unfold Terms.movable, Terms.pieces_at in Happend.
  rewrite Hfree, Hclock in Happend. cbn [app] in Happend.
  destruct (Happend ltac:(congruence) ltac:(congruence) eq_refl)
    as (Hcode & Hnew & Hother).
  cbv zeta. split; [exact Hcode|]. split; [exact Hnew|]. split.
  - intros j Hj. rewrite Hother; [apply Hup; exact Hj|].
    intros E. apply (@fitting_names_differ l (j + 1) 0 Hfit) in E; lia.
  - intros p Hp. rewrite Hother; [apply Hrest; exact Hp|].
    apply Hp. lia.
Qed.

Lemma rotating_write_starts_new_file_witness :
  @accepted platform Scenario.note (Some Scenario.app_info) = true
  /\ lookup (szLogPath Scenario.app_info) (disk Scenario.due) =
       Some (File Scenario.mebibyte false)
  /\ nFileSize Scenario.app_info <= Z.shiftr (size_of Scenario.mebibyte) 10
  /\ (let r := @perform platform Scenario.note (Some Scenario.app_info)
                 Scenario.due in
      fst (fst r) = 0
      /\ lookup Scenario.live (disk (snd r)) =
           Some (File [@record_of platform Scenario.note Sim.noon] false)
      /\ lookup Scenario.gen1 (disk (snd r)) = Some (File Scenario.mebibyte false)).
Proof.
  assert (Hacc : @accepted platform Scenario.note (Some Scenario.app_info) = true)
    by reflexivity.
  assert (Hn : 0 <= nLogBackup Scenario.app_info) by (vm_compute; discriminate).
  assert (Hlive : szLogPath Scenario.app_info = backupName Scenario.app_info 0)
    by reflexivity.
  assert (Hfile : lookup (szLogPath Scenario.app_info) (disk Scenario.due) =
                  Some (File Scenario.mebibyte false)) by reflexivity.
  assert (Hfire : nFileSize Scenario.app_info <=
                  Z.shiftr (size_of Scenario.mebibyte) 10)
    by (vm_compute; discriminate).
  destruct (@rotating_write_starts_new_file Scenario.note Scenario.app_info
              Scenario.due Scenario.mebibyte Hacc Hn Hlive app_names_fit
              due_names_movable eq_refl eq_refl Hfile Hfire)
    as (Hcode & Hnew & Hup & _).
  refine (conj Hacc (conj Hfile (conj Hfire (conj Hcode (conj Hnew _))))).
  exact (Hup 0 ltac:(vm_compute; split; [discriminate|reflexivity])).
Defined.

End SimFacts.
